(** * Smart-Legal-Solutions: the document agents of [src/agents.py]

    A shallow embedding of the chunker, the prompt rendering, the six
    chunk-and-join task agents, the chat agent and the module start-up,
    followed by the properties the specification states about them. *)

From Stdlib Require Import ZArith NArith List String Ascii Lia.
From stdpp Require Import base list gmap.
Import ListNotations.

Local Open Scope Z_scope.

(** ** Python strings

    A Python [str] is a sequence of Unicode code points and [len] counts
    code points, so a string is a list of code points.  String literals of
    the source are written as UTF-8 text and decoded. *)

Definition pystr : Type := list N.

Fixpoint utf8_decode (bs : list N) : pystr :=
  match bs with
  | [] => []
  | b0 :: r0 =>
    if (b0 <? 128)%N then b0 :: utf8_decode r0
    else
      match r0 with
      | [] => []
      | b1 :: r1 =>
        if (b0 <? 224)%N
        then ((b0 mod 32) * 64 + b1 mod 64)%N :: utf8_decode r1
        else
          match r1 with
          | [] => []
          | b2 :: r2 =>
            if (b0 <? 240)%N
            then ((b0 mod 16) * 4096 + (b1 mod 64) * 64 + b2 mod 64)%N
                   :: utf8_decode r2
            else
              match r2 with
              | [] => []
              | b3 :: r3 =>
                ((b0 mod 8) * 262144 + (b1 mod 64) * 4096
                 + (b2 mod 64) * 64 + b3 mod 64)%N :: utf8_decode r3
              end
          end
      end
  end.

Definition lit (s : string) : pystr :=
  utf8_decode (map N_of_ascii (list_ascii_of_string s)).

(** [len(s)] *)
Definition len (s : pystr) : Z := Z.of_nat (length s).

(** [s[start:stop]] with CPython's index adjustment: a negative index
    counts from the end, and both ends are clamped to [0, len(s)]. *)
Definition adjust_index (n i : Z) : Z :=
  if i <? 0 then Z.max 0 (i + n) else Z.min i n.

Definition py_slice (s : pystr) (start stop : Z) : pystr :=
  let lo := adjust_index (len s) start in
  let hi := adjust_index (len s) stop in
  if lo <? hi then take (Z.to_nat (hi - lo)) (drop (Z.to_nat lo) s) else [].

(** [sep.join(parts)] *)
Fixpoint py_join (sep : pystr) (parts : list pystr) : pystr :=
  match parts with
  | [] => []
  | [p] => p
  | p :: rest => p ++ sep ++ py_join sep rest
  end.

(** ** The chunker: [chunk_document]

    The state of the [while] loop is the pair [(start, chunks)].  The loop
    is iterated with fuel; [None] means the fuel ran out. *)

Definition loop_state : Type := Z * list pystr.

Definition loop_cond (document : pystr) (st : loop_state) : bool :=
  fst st <? len document.

Definition loop_body (document : pystr) (max_length : Z) (st : loop_state)
  : loop_state :=
  let start := fst st in
  let end_ := Z.min (start + max_length) (len document) in
  (end_, snd st ++ [py_slice document start end_]).

Fixpoint chunk_loop (fuel : nat) (document : pystr) (max_length : Z)
  (st : loop_state) : option (list pystr) :=
  match fuel with
  | O => None
  | S fuel' =>
    if loop_cond document st
    then chunk_loop fuel' document max_length (loop_body document max_length st)
    else Some (snd st)
  end.

(** The loop runs at most [len(document)] times when it terminates at all
    (see [chunk_loop_diverges] for the other case), so this fuel is enough. *)
Definition chunk_document (document : pystr) (max_length : Z)
  : option (list pystr) :=
  chunk_loop (S (length document)) document max_length (0, []).

Definition default_max_length : Z := 5000.

(** Every chunk but the last has length [L]; the last has 1 to [L]
    characters. *)
Fixpoint well_sized (L : Z) (chunks : list pystr) : Prop :=
  match chunks with
  | [] => True
  | [c] => 1 <= len c <= L
  | c :: rest => len c = L /\ well_sized L rest
  end.

(** ** Exceptions and outcomes

    Every exception the modelled code can meet is an instance of Python's
    [Exception]: the [ValueError]s of [str.format] and of the start-up
    check, and whatever the completion client raises.  An exception is kept
    as its class name and the text [str(e)]. *)

Record PyExn : Type := mkExn { exn_class : pystr; exn_str : pystr }.

Definition ValueError (msg : pystr) : PyExn := mkExn (lit "ValueError") msg.

Inductive Outcome (A : Type) : Type :=
| Returned (a : A)        (* the call returns [a] *)
| Raised (e : PyExn)      (* the call raises [e] *)
| Unmodelled              (* [str.format] left the modelled fragment *)
| Diverged.               (* the chunker's loop never ends *)

Arguments Returned {A} a.
Arguments Raised {A} e.
Arguments Unmodelled {A}.
Arguments Diverged {A}.

(** ** Prompt rendering: [prompt.format(document=document)]

    The scanner follows CPython's format-string iterator on the fragment
    the prompts use: literal text, the escapes of a doubled brace, the
    [ValueError]s of an unmatched brace, and the one replacement field
    named [document], which is replaced by the argument as it is.  Any
    other field (another name, an index, an attribute, a conversion or a
    format specification) is reported as [Unmodelled]. *)

Definition lbrace : N := 123.
Definition rbrace : N := 125.
Definition dquote : N := 34.

Definition document_field : pystr := lit "document".

Fixpoint pystr_eqb (a b : pystr) : bool :=
  match a, b with
  | [], [] => true
  | x :: a', y :: b' => (x =? y)%N && pystr_eqb a' b'
  | _, _ => false
  end.

Definition special_in_field (c : N) : bool :=
  ((c =? 91) || (c =? 58) || (c =? 33) || (c =? 46))%N.  (* [ : ! . *)

Inductive fmt_mode : Type :=
| Text
| AfterOpen
| AfterClose
| Field (name : pystr).

Definition emit {A} (s : list A) (r : Outcome (list A)) : Outcome (list A) :=
  match r with
  | Returned t => Returned (s ++ t)
  | other => other
  end.

Fixpoint format_from (mode : fmt_mode) (document : pystr) (s : pystr)
  : Outcome pystr :=
  match s with
  | [] =>
    match mode with
    | Text => Returned []
    | AfterOpen =>
      Raised (ValueError (lit "Single '{' encountered in format string"))
    | AfterClose =>
      Raised (ValueError (lit "Single '}' encountered in format string"))
    | Field _ =>
      Raised (ValueError (lit "expected '}' before end of string"))
    end
  | c :: rest =>
    match mode with
    | Text =>
      if (c =? lbrace)%N then format_from AfterOpen document rest
      else if (c =? rbrace)%N then format_from AfterClose document rest
      else emit [c] (format_from Text document rest)
    | AfterClose =>
      if (c =? rbrace)%N then emit [rbrace] (format_from Text document rest)
      else Raised (ValueError (lit "Single '}' encountered in format string"))
    | AfterOpen =>
      if (c =? lbrace)%N then emit [lbrace] (format_from Text document rest)
      else if (c =? rbrace)%N then Unmodelled
      else if special_in_field c then Unmodelled
      else format_from (Field [c]) document rest
    | Field name =>
      if (c =? rbrace)%N then
        if pystr_eqb name document_field
        then emit document (format_from Text document rest)
        else Unmodelled
      else if (c =? lbrace)%N then
        Raised (ValueError (lit "unexpected '{' in field name"))
      else if special_in_field c then Unmodelled
      else format_from (Field (name ++ [c])) document rest
    end
  end.

Definition py_format (prompt document : pystr) : Outcome pystr :=
  format_from Text document prompt.

Inductive Message : Type :=
| SystemMessage (content : pystr)
| HumanMessage (content : pystr).

Definition create_messages (prompt document : pystr) : Outcome (list Message) :=
  match py_format prompt document with
  | Returned rendered =>
    Returned [SystemMessage (lit "You are a legal expert AI assistant.");
              HumanMessage rendered]
  | Raised e => Raised e
  | Unmodelled => Unmodelled
  | Diverged => Diverged
  end.

(** ** The prompts, as they stand in the source *)

Definition summary_prompt : pystr :=
  lit "You are an expert legal AI assistant specialized in Serbian law. Your primary task is to create SHORT, HIGH-EFFICIENCY summaries of legal documents. Every summary must be concise and focused only on the most critical information a lawyer needs to know.

                CORE REQUIREMENTS:

                Maximum length: 600 words total
                Focus on actionable information
                Prioritize only the most critical points
                Use precise, economical language

                SUMMARY STRUCTURE:

                BASIC INFORMATION (2–3 lines)
                Case/Document Number: [Number, Date, Type]
                Parties: [Only main parties]
                Forum: [Court/Authority]

                CRITICAL OVERVIEW (30–40 words)
                One short paragraph covering the key issue and current status.

                KEY LEGAL ELEMENTS
                Primary Legal Issue: [Most important legal question]
                Essential Facts:
                • [Max 3 bullet points]
                Decisive Arguments:
                • [Strongest argument for each side]
                Key Evidence:
                • [Only evidence that determines the case outcome]

                OUTCOME & IMPACT (2–3 bullets)
                • Decision/Status
                • Urgent required action
                • Main risk/opportunity

                VITAL REFERENCES
                • Primary legal provision
                • Precedent (if applicable)

                WRITING GUIDELINES:
                Use short, declarative sentences
                Include only information that affects decision-making
                Exclude background unless essential
                Focus on conclusions rather than explanations
                Highlight only time-sensitive elements

                Please deliver a short summary of the following document, strictly following the length and format requirements above:
                {document}
                
                Always respond in English, regardless of the document language.".

Definition appeal_prompt : pystr :=
  lit "You are a legal assistant specialized in drafting formal appeals based on the provided legal document.
                Analyze the document and generate an appeal following the structure below:

                1. Header
                [NAME OF COURT]
                [JURISDICTION]
                [Case Number]
                [NAME OF APPELLANT], Appellant
                vs.
                [NAME OF RESPONDENT], Respondent

                2. APPEAL / NOTICE OF APPEAL
                [Formal notice of appeal]

                3. Statement of Jurisdiction
                [Explanation of the court’s jurisdiction]

                4. Statement of Facts
                [Factual background]

                5. Issues on Appeal
                [List of specific issues being appealed]

                6. Argument
                [Detailed arguments for each issue]

                7. Conclusion
                [Requested outcome]

                8. Signature and Contact Information
                [Signature and details]

                9. Certificate of Service
                [Proof of service]

                Analyze the following document and fill in this structure:
                {document}
                Always respond in English, regardless of the document language.".

Definition review_prompt : pystr :=
  lit "You are an expert in Serbian law, an AI legal analyst with deep knowledge of Serbian contract, commercial and civil law.
                Where applicable, follow the guidelines below for specific document types. Create a focused legal review of the document (maximum 750 words). Your goal is to produce a concise, actionable overview that Serbian lawyers can immediately use.

                SUMMARY FOR ENFORCEMENT (3–4 sentences max)
                - Type of document, purpose, and parties
                - Applicable law and jurisdiction
                - Key financial or business obligations
                - Critical compliance status

                HIGH-PRIORITY ANALYSIS
                A. Legal Compliance (Top 3 critical issues)
                - Compliance problems with Serbian law, referencing specific statutes
                - Missing mandatory clauses required by the Serbian Civil Code
                - Consumer protection law issues (if applicable)
                - EU law implications affecting validity

                B. Risk Assessment (Top 3 by severity)
                - Business/legal risks with potential impact
                - Concerns about enforceability before Serbian courts
                - Deviations from Serbian market practice
                - Conflicts with recent Supreme Court precedents

                ACTION PLAN (maximum 5 points)
                - Required amendments for legal compliance
                - Specific clause modifications needed
                - Additional recommended provisions
                - Steps to mitigate risks
                - Practical guidance for implementation

                REVIEW REQUIREMENTS
                - Reference specific Serbian laws, regulations, and case law
                - Focus on essential issues, not formatting
                - Prioritize problems based on legal/business impact
                - Keep the language clear and action-oriented
                - Include business-critical EU law implications (when relevant)

                FINAL SUMMARY
                A 3-sentence conclusion highlighting the most urgent issue requiring immediate attention.

                REVIEW PARAMETERS
                - Each section must be direct and concise
                - Focus on major legal issues, not minor technicalities
                - Include only relevant case law references
                - Maintain practical business context
                - Emphasize any urgent compliance issues

                Analyze the following document according to these parameters:
                {document}
                Always respond in English, regardless of the document language.".

Definition lawsuit_prompt : pystr :=
  lit "You are an AI assistant designed to help Serbian lawyers draft legal complaints and related documents.
                Analyze the document and generate a legal complaint following the structure below:

                [Name of Court]
                [Jurisdiction]
                [Case Number]

                PLAINTIFF: [Extract from document]
                DEFENDANT: [Extract from document]

                COMPLAINT

                I. INTRODUCTION
                [Generate an introduction based on the document]

                II. JURISDICTION AND VENUE
                [Determine the proper jurisdiction]

                III. PARTIES
                [Details about the parties extracted from the document]

                IV. FACTUAL ALLEGATIONS
                [Extract and organize the facts]

                V. CAUSES OF ACTION
                [Legal grounds for the claim]

                VI. DAMAGES
                [Specify the damages]

                VII. PRAYER FOR RELIEF
                [Formulate the requested remedies]

                VIII. REQUEST FOR JUDICIAL PANEL
                [Standard request]

                IX. EXHIBITS
                [List supporting evidence]

                Analyze the following document and complete the structure:
                {document}
                Always respond in English, regardless of the document language.".

Definition lawsuit_response_prompt : pystr :=
  lit "You are an AI assistant designed to help Serbian lawyers prepare legal answers to lawsuits.
                Analyze the document and generate an answer to the complaint using the structure below:

                [Name of Court]
                [Jurisdiction]
                [Case Number]

                Defendant: [Extract from document]
                Address: [Defendant’s Address]
                Phone: [Defendant’s Phone]
                Email: [Defendant’s Email]

                ANSWER TO COMPLAINT

                I. INTRODUCTION
                [Generate an introduction based on the document]

                II. RESPONSE TO FACTUAL ALLEGATIONS
                [Address each allegation made by the plaintiff individually]

                III. LEGAL ARGUMENTS
                [Legal arguments and counterarguments]

                IV. EVIDENCE
                [List and describe supporting evidence]

                V. REQUEST FOR RELIEF
                [Formulate the defendant’s requests]

                VI. EXHIBITS
                [List the exhibits]

                Analyze the following document and complete the structure:
                {document}
                Always respond in English, regardless of the document language.".

Definition contract_analysis_prompt : pystr :=
  lit "You are a legal contract analyst specialized in Serbian law.
                Please analyze the following contract according to these criteria:

                1. Basic Elements of the Contract:
                   - Offer and acceptance
                   - Consideration and intent
                   - Capacity to contract
                   - Compliance with the Law on Obligations (Zakon o obligacionim odnosima)

                2. Key Clauses:
                   - Identification and explanation of important provisions
                   - Assessment of clarity and enforceability
                   - Recommendations for improvement
                   - Potential legal ambiguities

                3. Legal Compliance:
                   - Verification of compliance with Serbian laws
                   - References to relevant regulations
                   - Alignment with case law
                   - Regulatory concerns

                4. Risk Assessment:
                   - Legal risks
                   - Financial risks
                   - Operational risks
                   - Recommendations for mitigation

                5. Special Provisions:
                   - Choice of law and jurisdiction
                   - International aspects (if any)
                   - Sector-specific requirements
                   - Data protection and confidentiality

                6. Recommendations for Improvement:
                   - Specific proposed amendments
                   - Additional protective measures
                   - Alignment with best practices
                   - Legal optimization

                Analyze the following contract:
                {document}
                Always respond in English, regardless of the document language.".

Definition chat_system_content : pystr :=
  lit "
            You are the "
  ++ [dquote]
  ++ lit "Legal Chat Helper Agent,"
  ++ [dquote]
  ++ lit " designed to assist users in working with legal documents.
            Your role is to:
            - Guide users through document-related tasks
            - Explain content in simple, easy-to-understand language
            - Help interpret specific sections of documents
            - Suggest relevant actions (summaries, appeals, reviews, etc.)
            - Stay neutral and professional
            - Provide accurate, helpful responses
            
            When responding:
            1. First understand if the user needs:
               - An explanation of the document
               - Help editing or modifying the document
               - Guidance on using other agents
               - General legal questions
                                       
            2. Provide clear, structured guidance
            3. Suggest practical next steps
            4. Base your response strictly on the provided document
            Always respond in English, regardless of the document language.
        ".

Definition chat_human_part1 : pystr :=
  lit "
            Based on this legal document, please help with the following:
            
            User Question: ".

Definition chat_human_part2 : pystr :=
  lit "
            
            Document Content:
            ---
            ".

Definition chat_human_part3 : pystr :=
  lit "
            ---
            
            Please provide a helpful and detailed response while maintaining professional legal tone.
            Always respond in English, regardless of the document language.
        ".

Definition chat_apology : pystr :=
  lit "I apologize, but I encountered an error. Could you please rephrase your question or specify what you'd like to know about the document?".

(** ** Reading a prompt

    [no_brace s]: no character of [s] is a brace.  [placeholder] is the
    text of the replacement field.  [prompt_prefix] is the text of a prompt
    up to its first brace, and [prompt_suffix] what follows the ten
    characters of the placeholder after it. *)
Definition no_brace (s : pystr) : bool :=
  forallb (fun c => negb ((c =? lbrace) || (c =? rbrace))%N) s.

Fixpoint before_brace (s : pystr) : pystr :=
  match s with
  | [] => []
  | c :: rest =>
    if ((c =? lbrace) || (c =? rbrace))%N then [] else c :: before_brace rest
  end.

Definition placeholder : pystr := lbrace :: document_field ++ [rbrace].

Definition prompt_prefix (prompt : pystr) : pystr := before_brace prompt.

Definition prompt_suffix (prompt : pystr) : pystr :=
  drop (length (before_brace prompt) + length placeholder) prompt.

(** [needle in haystack], Python's substring test. *)
Fixpoint is_prefix (p s : pystr) : bool :=
  match p, s with
  | [], _ => true
  | _ :: _, [] => false
  | a :: p', b :: s' => (a =? b)%N && is_prefix p' s'
  end.

Fixpoint py_in (needle haystack : pystr) : bool :=
  is_prefix needle haystack
  || match haystack with
     | [] => false
     | _ :: rest => py_in needle rest
     end.

(** ** The world the agents run in

    The completion client is the external collaborator: [invoke] is its
    [model.invoke(messages).content], which returns text or raises, and may
    depend on and change a state of the client's own.  The world records, in
    order, every call made to the client and every line logged. *)

Inductive Event : Type :=
| Invoked (messages : list Message) (reply : pystr + PyExn)
| Logged (text : pystr).

Definition is_call (ev : Event) : bool :=
  match ev with Invoked _ _ => true | Logged _ => false end.

Section Agents.

Variable ClientState : Type.
Variable invoke : ClientState -> list Message -> (pystr + PyExn) * ClientState.

Record World : Type := mkWorld { client : ClientState; events : list Event }.

Definition M (A : Type) : Type := World -> Outcome A * World.

Definition ret {A} (a : A) : M A := fun w => (Returned a, w).

Definition bind {A B} (m : M A) (k : A -> M B) : M B :=
  fun w =>
    match m w with
    | (Returned a, w') => k a w'
    | (Raised e, w') => (Raised e, w')
    | (Unmodelled, w') => (Unmodelled, w')
    | (Diverged, w') => (Diverged, w')
    end.

(** [try: body  except Exception as e: handler] *)
Definition try_except {A} (body : M A) (handler : PyExn -> M A) : M A :=
  fun w =>
    match body w with
    | (Raised e, w') => handler e w'
    | other => other
    end.

Definition lift {A} (o : Outcome A) : M A := fun w => (o, w).

Definition lift_loop {A} (o : option A) : M A :=
  fun w => (match o with Some a => Returned a | None => Diverged end, w).

Local Notation "'do' x <- m ; k" := (bind m (fun x => k))
  (at level 10, x name, m at level 100, k at level 200).

(** [model.invoke(messages).content] *)
Definition model_invoke (messages : list Message) : M pystr :=
  fun w =>
    let (reply, c') := invoke (client w) messages in
    let w' := mkWorld c' (events w ++ [Invoked messages reply]) in
    match reply with
    | inl content => (Returned content, w')
    | inr e => (Raised e, w')
    end.

(** [logging.error(text)] *)
Definition logging_error (text : pystr) : M unit :=
  fun w => (Returned tt, mkWorld (client w) (events w ++ [Logged text])).

(** The [for chunk in doc_chunks] loop; [parts] is the list appended to. *)
Fixpoint for_chunks (prompt : pystr) (doc_chunks : list pystr)
  (parts : list pystr) : M (list pystr) :=
  match doc_chunks with
  | [] => ret parts
  | chunk :: rest =>
    do messages <- lift (create_messages prompt chunk) ;
    do response <- model_invoke messages ;
    for_chunks prompt rest (parts ++ [response])
  end.

(** The body the six task agents share; they differ in the prompt and in
    the two texts of the handler.  The agents are [async def] coroutines
    with no [await] in them: running one is running its body. *)
Definition task_agent (prompt log_prefix error_prefix : pystr)
  (document : pystr) : M pystr :=
  try_except
    (do doc_chunks <- lift_loop (chunk_document document default_max_length) ;
     do parts <- for_chunks prompt doc_chunks [] ;
     ret (py_join (lit " ") parts))
    (fun e =>
       do _ <- logging_error (log_prefix ++ exn_str e) ;
       ret (error_prefix ++ exn_str e)).

Definition legal_summary_agent : pystr -> M pystr :=
  task_agent summary_prompt
    (lit "Error in summary agent: ") (lit "Error generating summary: ").

Definition legal_appeal_agent : pystr -> M pystr :=
  task_agent appeal_prompt
    (lit "Error in appeal agent: ") (lit "Error generating appeal: ").

Definition legal_review_agent : pystr -> M pystr :=
  task_agent review_prompt
    (lit "Error in review agent: ") (lit "Error generating review: ").

Definition legal_lawsuit_agent : pystr -> M pystr :=
  task_agent lawsuit_prompt
    (lit "Error in lawsuit agent: ") (lit "Error generating lawsuit: ").

Definition legal_lawsuit_response_agent : pystr -> M pystr :=
  task_agent lawsuit_response_prompt
    (lit "Error in lawsuit response agent: ")
    (lit "Error generating lawsuit response: ").

Definition legal_contract_analysis_agent : pystr -> M pystr :=
  task_agent contract_analysis_prompt
    (lit "Error in contract analysis agent: ")
    (lit "Error analyzing contract: ").

Definition chat_human_content (document question : pystr) : pystr :=
  chat_human_part1 ++ question ++ chat_human_part2 ++ document
  ++ chat_human_part3.

Definition legal_chat_helper_agent (document question : pystr) : M pystr :=
  try_except
    (let system_message := SystemMessage chat_system_content in
     let human_message := HumanMessage (chat_human_content document question) in
     let messages := [system_message; human_message] in
     do response <- model_invoke messages ;
     ret response)
    (fun e =>
       do _ <- logging_error (lit "Error in chat helper: " ++ exn_str e) ;
       ret chat_apology).

End Agents.

Arguments client {ClientState} w.
Arguments events {ClientState} w.
Arguments mkWorld {ClientState} client events.
Arguments ret {ClientState A} a w.
Arguments bind {ClientState A B} m k w.
Arguments try_except {ClientState A} body handler w.
Arguments lift {ClientState A} o w.
Arguments lift_loop {ClientState A} o w.
Arguments model_invoke {ClientState} invoke messages w.
Arguments logging_error {ClientState} text w.
Arguments for_chunks {ClientState} invoke prompt doc_chunks parts w.
Arguments task_agent {ClientState} invoke prompt log_prefix error_prefix document w.
Arguments legal_summary_agent {ClientState} invoke document w.
Arguments legal_appeal_agent {ClientState} invoke document w.
Arguments legal_review_agent {ClientState} invoke document w.
Arguments legal_lawsuit_agent {ClientState} invoke document w.
Arguments legal_lawsuit_response_agent {ClientState} invoke document w.
Arguments legal_contract_analysis_agent {ClientState} invoke document w.
Arguments legal_chat_helper_agent {ClientState} invoke document question w.

(** The six task agents that chunk their document. *)
Inductive Task : Type :=
| Summary | Appeal | Review | Lawsuit | LawsuitResponse | ContractAnalysis.

Definition prompt_of (t : Task) : pystr :=
  match t with
  | Summary => summary_prompt
  | Appeal => appeal_prompt
  | Review => review_prompt
  | Lawsuit => lawsuit_prompt
  | LawsuitResponse => lawsuit_response_prompt
  | ContractAnalysis => contract_analysis_prompt
  end.

Definition error_prefix_of (t : Task) : pystr :=
  match t with
  | Summary => lit "Error generating summary: "
  | Appeal => lit "Error generating appeal: "
  | Review => lit "Error generating review: "
  | Lawsuit => lit "Error generating lawsuit: "
  | LawsuitResponse => lit "Error generating lawsuit response: "
  | ContractAnalysis => lit "Error analyzing contract: "
  end.

Definition agent_of {ClientState : Type}
  (invoke : ClientState -> list Message -> (pystr + PyExn) * ClientState)
  (t : Task) : pystr -> M ClientState pystr :=
  match t with
  | Summary => legal_summary_agent invoke
  | Appeal => legal_appeal_agent invoke
  | Review => legal_review_agent invoke
  | Lawsuit => legal_lawsuit_agent invoke
  | LawsuitResponse => legal_lawsuit_response_agent invoke
  | ContractAnalysis => legal_contract_analysis_agent invoke
  end.

Definition log_prefix_of (t : Task) : pystr :=
  match t with
  | Summary => lit "Error in summary agent: "
  | Appeal => lit "Error in appeal agent: "
  | Review => lit "Error in review agent: "
  | Lawsuit => lit "Error in lawsuit agent: "
  | LawsuitResponse => lit "Error in lawsuit response agent: "
  | ContractAnalysis => lit "Error in contract analysis agent: "
  end.

(** The messages a task agent sends for one chunk: the prompt's text before
    its placeholder, the chunk, the prompt's text after it. *)
Definition task_messages (t : Task) (chunk : pystr) : list Message :=
  [SystemMessage (lit "You are a legal expert AI assistant.");
   HumanMessage
     (prompt_prefix (prompt_of t) ++ chunk ++ prompt_suffix (prompt_of t))].

Definition chat_messages (document question : pystr) : list Message :=
  [SystemMessage chat_system_content;
   HumanMessage (chat_human_content document question)].

(** What a run added to the record of the world. *)
Definition new_events {ClientState : Type} (w w' : World ClientState)
  : list Event :=
  drop (length (events w)) (events w').

(** [ev] is a call made for one of the chunks, with that chunk's messages. *)
Definition sent_for (t : Task) (chunks : list pystr) (ev : Event) : Prop :=
  exists chunk reply,
    In chunk chunks /\ ev = Invoked (task_messages t chunk) reply.

Definition succeeded (ev : Event) : bool :=
  match ev with
  | Invoked _ (inl _) => true
  | _ => false
  end.

(** Two clients to run the agents with: one that answers [X] to every call,
    one that answers [X] to its first [k] calls and raises from then on.
    Their state counts the calls received. *)
Definition echo_X (n : nat) (messages : list Message) : (pystr + PyExn) * nat :=
  (inl (lit "X"), S n).

(** A document of [n] letters [a]. *)
Definition letters (n : Z) : pystr := repeat 97%N (Z.to_nat n).

Definition quota_error : PyExn :=
  mkExn (lit "CompletionError") (lit "quota exceeded").

Definition fails_after (k n : nat) (messages : list Message)
  : (pystr + PyExn) * nat :=
  if (n <? k)%nat then (inl (lit "X"), S n) else (inr quota_error, S n).

(** ** Module start-up

    [load_dotenv()] adds the entries of the [.env] file to the process
    environment without replacing a variable that is already set; then the
    key is read and the client is built.  [dotenv] is the content of the
    [.env] file, empty when there is none. *)

Record ChatOpenAI : Type := mkChatOpenAI {
  model_name : pystr;
  openai_api_key : pystr;
  temperature : Z * Z;            (* the literal 0.7, as 7 / 10 *)
  max_completion_tokens : Z
}.

(** The module's globals once the import has run to its end. *)
Record Globals : Type := mkGlobals { api_key : pystr; model : ChatOpenAI }.

Definition load_dotenv (environ dotenv : gmap pystr pystr) : gmap pystr pystr :=
  environ ∪ dotenv.

Definition getenv (environ : gmap pystr pystr) (name : pystr) : option pystr :=
  environ !! name.

(** [not api_key]: true for [None] and for the empty string. *)
Definition py_not (v : option pystr) : bool :=
  match v with
  | None => true
  | Some [] => true
  | Some (_ :: _) => false
  end.

Definition module_init (environ dotenv : gmap pystr pystr) : Outcome Globals :=
  let environ := load_dotenv environ dotenv in
  let api_key := getenv environ (lit "OPENAI_API_KEY") in
  if py_not api_key
  then Raised (ValueError (lit "OPENAI_API_KEY not found in environment variables"))
  else
    let key := default [] api_key in
    Returned (mkGlobals key (mkChatOpenAI (lit "gpt-4o-mini") key (7, 10) 2048)).

(** ** Prompts read by segments

    A prompt as [str.format] reads it: stretches of literal text, the
    replacement field, and the two escapes.  [flatten] is the text of the
    prompt, [fill] the text it renders to. *)

Inductive Segment : Type :=
| Lit (s : pystr)
| Hole
| EscOpen
| EscClose.

Definition segment_text (seg : Segment) : pystr :=
  match seg with
  | Lit s => s
  | Hole => placeholder
  | EscOpen => [lbrace; lbrace]
  | EscClose => [rbrace; rbrace]
  end.

Definition segment_value (document : pystr) (seg : Segment) : pystr :=
  match seg with
  | Lit s => s
  | Hole => document
  | EscOpen => [lbrace]
  | EscClose => [rbrace]
  end.

Definition flatten (tpl : list Segment) : pystr :=
  concat (map segment_text tpl).

Definition fill (document : pystr) (tpl : list Segment) : pystr :=
  concat (map (segment_value document) tpl).

(** The literal text of a segment holds no brace. *)
Definition plain (seg : Segment) : Prop :=
  match seg with
  | Lit s => no_brace s = true
  | _ => True
  end.

(** The record of a call made for [chunk] that the client answered. *)
Definition answered (t : Task) (chunk out : pystr) : Event :=
  Invoked (task_messages t chunk) (inl out).

(** The number of calls to the client in a stretch of the record. *)
Definition calls_made (evs : list Event) : nat :=
  length (List.filter is_call evs).

(** * Properties of the chunker *)

Section Chunker.

Variable document : pystr.
Variable L : Z.
Hypothesis L_pos : 0 < L.

Lemma py_slice_inside (start stop : Z) :
  0 <= start -> start <= stop -> stop <= len document ->
  py_slice document start stop
  = take (Z.to_nat (stop - start)) (drop (Z.to_nat start) document).
Proof using Type.
  intros H0 H1 H2. unfold py_slice, adjust_index.
  destruct (start <? 0) eqn:E1; [lia|].
  destruct (stop <? 0) eqn:E2; [lia|].
  rewrite !Z.min_l by lia.
  destruct (start <? stop) eqn:E3; [reflexivity|].
  replace (stop - start) with 0 by lia. reflexivity.
Qed.

(** One iteration from a position inside the document moves the position
    strictly forward and keeps it inside. *)
Lemma loop_body_advances (st : loop_state) :
  0 <= fst st -> loop_cond document st = true ->
  fst st < fst (loop_body document L st) <= len document.
Proof using L_pos.
  unfold loop_cond, loop_body. cbn [fst]. intros H0 Hc.
  apply Z.ltb_lt in Hc. lia.
Qed.

Lemma well_sized_cons (c : pystr) (cs : list pystr) :
  len c = L -> well_sized L cs -> well_sized L (c :: cs).
Proof using L_pos.
  intros Hc Hcs. destruct cs as [|c' cs]; cbn; [lia|]. split; assumption.
Qed.

(** The loop, started anywhere inside the document with enough fuel,
    returns the accumulated chunks followed by a well-sized partition of
    the rest of the document. *)
Lemma chunk_loop_spec (fuel : nat) :
  forall (start : Z) (acc : list pystr),
    0 <= start <= len document ->
    len document - start < Z.of_nat fuel ->
    exists cs,
      chunk_loop fuel document L (start, acc) = Some (acc ++ cs)
      /\ concat cs = drop (Z.to_nat start) document
      /\ well_sized L cs
      /\ (start = len document -> cs = []).
Proof using L_pos.
  induction fuel as [|fuel IH]; intros start acc Hs Hf; [lia|].
  cbn [chunk_loop]. unfold loop_cond. cbn [fst snd].
  destruct (start <? len document) eqn:Hc.
  - apply Z.ltb_lt in Hc.
    unfold loop_body. cbn [fst snd].
    set (e := Z.min (start + L) (len document)).
    assert (He : start < e <= len document) by (unfold e; lia).
    destruct (IH e (acc ++ [py_slice document start e])) as (cs & Hrun & Hcat & Hws & Hend);
      [lia | lia |].
    exists (py_slice document start e :: cs).
    rewrite Hrun, <- app_assoc. cbn [app].
    rewrite py_slice_inside by lia.
    set (d := drop (Z.to_nat start) document) in *.
    assert (Hd : length d = Z.to_nat (len document - start)).
    { unfold d, len. rewrite length_drop. lia. }
    split; [reflexivity|]. split; [|split].
    + cbn [concat]. rewrite Hcat.
      replace (Z.to_nat e) with (Z.to_nat start + Z.to_nat (e - start))%nat by lia.
      rewrite <- drop_drop. fold d. apply take_drop.
    + assert (Hl : len (take (Z.to_nat (e - start)) d) = e - start).
      { unfold len. rewrite length_take. lia. }
      destruct (Z.eq_dec e (len document)) as [Heq|Hne].
      * rewrite (Hend Heq). cbn. rewrite Hl. unfold e in *. lia.
      * apply well_sized_cons; [|exact Hws]. rewrite Hl. unfold e in *. lia.
    + lia.
  - apply Z.ltb_ge in Hc. exists []. rewrite app_nil_r.
    assert (start = len document) by lia. subst start.
    split; [reflexivity|]. split; [|split; [exact I|reflexivity]].
    unfold len. rewrite Nat2Z.id. rewrite drop_all. reflexivity.
Qed.

Lemma chunk_document_spec :
  exists chunks,
    chunk_document document L = Some chunks
    /\ concat chunks = document
    /\ well_sized L chunks
    /\ (document = [] -> chunks = []).
Proof using L_pos.
  destruct (chunk_loop_spec (S (length document)) 0 []) as (cs & Hrun & Hcat & Hws & Hend).
  - unfold len. lia.
  - unfold len. lia.
  - exists cs. unfold chunk_document. rewrite Hrun. cbn [app].
    split; [reflexivity|]. split; [exact Hcat|]. split; [exact Hws|].
    intros ->. apply Hend. reflexivity.
Qed.

End Chunker.

(** More fuel does not change a result the loop has reached. *)
Lemma chunk_loop_more_fuel (document : pystr) (L : Z) (fuel : nat) :
  forall (st : loop_state) (r : list pystr) (extra : nat),
    chunk_loop fuel document L st = Some r ->
    chunk_loop (fuel + extra) document L st = Some r.
Proof.
  induction fuel as [|fuel IH]; intros st r extra H; [discriminate|].
  cbn [chunk_loop Nat.add] in *.
  destruct (loop_cond document st); [apply IH|]; exact H.
Qed.

(** With a maximum length of zero or less the position never passes zero,
    so on a non-empty document the loop never ends, whatever the fuel. *)
Lemma chunk_loop_diverges (document : pystr) (L : Z) (fuel : nat) :
  L <= 0 -> document <> [] ->
  forall st, fst st <= 0 -> chunk_loop fuel document L st = None.
Proof.
  intros HL Hne. induction fuel as [|fuel IH]; intros st Hst; [reflexivity|].
  cbn [chunk_loop]. unfold loop_cond.
  assert (0 < len document) by (unfold len; destruct document; [congruence|cbn; lia]).
  destruct (fst st <? len document) eqn:Hc; [|apply Z.ltb_ge in Hc; lia].
  apply IH. unfold loop_body. cbn [fst]. lia.
Qed.

Lemma len_app (a b : pystr) : len (a ++ b) = len a + len b.
Proof. unfold len. rewrite length_app. lia. Qed.

(** What [well_sized] says chunk by chunk. *)
Lemma well_sized_inner (L : Z) (chunks : list pystr) :
  well_sized L chunks ->
  forall (i : nat) (c : pystr),
    chunks !! i = Some c -> (S i < length chunks)%nat -> len c = L.
Proof.
  induction chunks as [|c0 rest IH]; intros Hws i c Hi Hlt; [discriminate|].
  destruct rest as [|c1 rest]; [cbn in Hlt; lia|].
  destruct Hws as [H0 Hrest].
  destruct i as [|i]; cbn in Hi.
  - congruence.
  - apply (IH Hrest i c Hi). cbn in *. lia.
Qed.

Lemma well_sized_last (L : Z) (chunks : list pystr) :
  0 < L -> well_sized L chunks ->
  forall c, last chunks = Some c -> 1 <= len c <= L.
Proof.
  intros HL. induction chunks as [|c0 rest IH]; intros Hws c Hc; [discriminate|].
  destruct rest as [|c1 rest].
  - cbn in Hc. injection Hc as <-. exact Hws.
  - destruct Hws as [_ Hrest]. apply (IH Hrest). exact Hc.
Qed.

(** A well-sized partition of [n] characters has [ceil(n / L)] chunks. *)
Lemma well_sized_count (L : Z) (chunks : list pystr) :
  0 < L -> well_sized L chunks -> chunks <> [] ->
  L * (Z.of_nat (length chunks) - 1) < len (concat chunks)
  /\ len (concat chunks) <= L * Z.of_nat (length chunks).
Proof.
  intros HL. induction chunks as [|c0 rest IH]; intros Hws Hne; [congruence|].
  destruct rest as [|c1 rest].
  - cbn [concat length]. rewrite app_nil_r. cbn in Hws. lia.
  - destruct Hws as [H0 Hrest].
    destruct (IH Hrest) as [Hlo Hhi]; [discriminate|].
    change (concat (c0 :: c1 :: rest)) with (c0 ++ concat (c1 :: rest)).
    rewrite len_app, H0.
    change (length (c0 :: c1 :: rest)) with (S (length (c1 :: rest))).
    rewrite Nat2Z.inj_succ. nia.
Qed.

(** * The chunker's contract *)

(** C1. For every document and every maximum length [L > 0],
    [chunk_document] returns chunks whose concatenation is the document;
    every chunk but the last has exactly [L] characters; the last chunk has
    between 1 and [L] characters; and the empty document gives no chunk. *)
Theorem chunk_document_partition (document : pystr) (L : Z) :
  0 < L ->
  exists chunks,
    chunk_document document L = Some chunks
    /\ concat chunks = document
    /\ (forall (i : nat) (c : pystr),
          chunks !! i = Some c -> (S i < length chunks)%nat -> len c = L)
    /\ (forall c, last chunks = Some c -> 1 <= len c <= L)
    /\ (document = [] -> chunks = []).
Proof.
  intros HL.
  destruct (chunk_document_spec document L HL) as (chunks & Hrun & Hcat & Hws & Hempty).
  exists chunks.
  split; [exact Hrun|]. split; [exact Hcat|]. split; [|split].
  - apply well_sized_inner; assumption.
  - apply well_sized_last; assumption.
  - exact Hempty.
Qed.

Lemma chunk_document_partition_witness :
  0 < 3
  /\ exists chunks,
       chunk_document (lit "abcdefg") 3 = Some chunks
       /\ concat chunks = lit "abcdefg"
       /\ (forall (i : nat) (c : pystr),
             chunks !! i = Some c -> (S i < length chunks)%nat -> len c = 3)
       /\ (forall c, last chunks = Some c -> 1 <= len c <= 3)
       /\ (lit "abcdefg" = [] -> chunks = []).
Proof.
  split; [lia | apply (chunk_document_partition (lit "abcdefg") 3); lia].
Defined.

(** C6, as the specification words it, fails on the empty document: its
    length is at most the maximum, and the chunker returns no chunk for it
    instead of one empty chunk. *)
Lemma chunk_document_empty_is_not_one_chunk :
  len [] <= default_max_length
  /\ chunk_document [] default_max_length = Some []
  /\ chunk_document [] default_max_length <> Some [[]].
Proof.
  split; [vm_compute; discriminate|]. split; [reflexivity|].
  vm_compute. discriminate.
Qed.

(** C6, amended. For every non-empty document whose length is at most the
    maximum length, [chunk_document] returns exactly one chunk, the
    document itself. *)
Theorem chunk_document_short (document : pystr) (L : Z) :
  document <> [] -> len document <= L ->
  chunk_document document L = Some [document].
Proof.
  intros Hne Hle.
  assert (Hpos : 0 < len document)
    by (unfold len; destruct document; [congruence|cbn; lia]).
  unfold chunk_document.
  destruct document as [|x rest] eqn:E; [congruence|]. rewrite <- E in *.
  assert (Hlen : length document = S (length rest)) by (rewrite E; reflexivity).
  rewrite Hlen.
  cbn [chunk_loop]. unfold loop_cond at 1. cbn [fst].
  destruct (0 <? len document) eqn:H0; [|apply Z.ltb_ge in H0; lia].
  unfold loop_body, loop_cond. cbn [fst snd app].
  rewrite Z.min_r by lia.
  rewrite Z.ltb_irrefl.
  rewrite py_slice_inside by lia.
  rewrite Z.sub_0_r. unfold len. rewrite Nat2Z.id. cbn [Z.to_nat drop].
  rewrite firstn_all. reflexivity.
Qed.

Lemma chunk_document_short_witness :
  lit "abc" <> []
  /\ len (lit "abc") <= default_max_length
  /\ chunk_document (lit "abc") default_max_length = Some [lit "abc"].
Proof.
  assert (H1 : lit "abc" <> []) by (vm_compute; discriminate).
  assert (H2 : len (lit "abc") <= default_max_length) by (vm_compute; discriminate).
  split; [exact H1|]. split; [exact H2|].
  exact (chunk_document_short (lit "abc") default_max_length H1 H2).
Defined.

(** C10. For every document and every maximum length of at least 1,
    [chunk_document] terminates with a list: each iteration moves the scan
    position strictly forward without passing the end of the document, and
    the loop returns within [len(document) + 1] tests of its condition, with
    the same list for any larger bound. *)
Theorem chunk_document_terminates (document : pystr) (max_length : Z) :
  1 <= max_length ->
  (forall st : loop_state,
      0 <= fst st -> loop_cond document st = true ->
      fst st < fst (loop_body document max_length st) <= len document)
  /\ exists chunks,
       chunk_document document max_length = Some chunks
       /\ forall fuel : nat,
            (length document < fuel)%nat ->
            chunk_loop fuel document max_length (0, []) = Some chunks.
Proof.
  intros HL. split.
  - intros st H0 Hc. apply loop_body_advances; [lia|assumption|assumption].
  - destruct (chunk_document_spec document max_length) as (chunks & Hrun & _); [lia|].
    exists chunks. split; [exact Hrun|].
    intros fuel Hfuel.
    replace fuel with (S (length document) + (fuel - S (length document)))%nat by lia.
    apply chunk_loop_more_fuel. exact Hrun.
Qed.

Lemma chunk_document_terminates_witness :
  1 <= 2
  /\ (forall st : loop_state,
        0 <= fst st -> loop_cond (lit "abcde") st = true ->
        fst st < fst (loop_body (lit "abcde") 2 st) <= len (lit "abcde"))
  /\ exists chunks,
       chunk_document (lit "abcde") 2 = Some chunks
       /\ forall fuel : nat,
            (length (lit "abcde") < fuel)%nat ->
            chunk_loop fuel (lit "abcde") 2 (0, []) = Some chunks.
Proof.
  split; [lia | apply (chunk_document_terminates (lit "abcde") 2); lia].
Defined.

(** * Prompt rendering *)

Lemma emit_nil {A} (r : Outcome (list A)) : emit [] r = r.
Proof. destruct r; reflexivity. Qed.

Lemma emit_emit {A} (s t : list A) (r : Outcome (list A)) :
  emit s (emit t r) = emit (s ++ t) r.
Proof. destruct r; cbn; [rewrite app_assoc|..]; reflexivity. Qed.

(** Text without braces is copied. *)
Lemma format_text_no_brace (document pre s : pystr) :
  no_brace pre = true ->
  format_from Text document (pre ++ s)
  = emit pre (format_from Text document s).
Proof.
  induction pre as [|c pre IH]; intros Hnb.
  - cbn [app]. symmetry. apply emit_nil.
  - cbn [no_brace forallb] in Hnb. apply andb_prop in Hnb as [Hc Hpre].
    apply negb_true_iff, orb_false_iff in Hc as [Hl Hr].
    cbn [app format_from]. rewrite Hl, Hr, (IH Hpre), emit_emit. reflexivity.
Qed.

(** The replacement field is replaced by the argument as it is. *)
Lemma format_placeholder (document s : pystr) :
  format_from Text document (placeholder ++ s)
  = emit document (format_from Text document s).
Proof. reflexivity. Qed.

Lemma py_format_split (pre post document : pystr) :
  no_brace pre = true -> no_brace post = true ->
  py_format (pre ++ placeholder ++ post) document
  = Returned (pre ++ document ++ post).
Proof.
  intros Hpre Hpost. unfold py_format.
  rewrite (format_text_no_brace _ _ _ Hpre), format_placeholder.
  rewrite <- (app_nil_r post) at 1.
  rewrite (format_text_no_brace _ _ _ Hpost). cbn [format_from emit].
  rewrite app_nil_r. reflexivity.
Qed.

(** Each of the six prompts is brace-free text around one placeholder. *)
Lemma prompt_split (t : Task) :
  prompt_of t
  = prompt_prefix (prompt_of t) ++ placeholder ++ prompt_suffix (prompt_of t).
Proof. destruct t; vm_compute; reflexivity. Qed.

Lemma prompt_prefix_no_brace (t : Task) :
  no_brace (prompt_prefix (prompt_of t)) = true.
Proof. destruct t; vm_compute; reflexivity. Qed.

Lemma prompt_suffix_no_brace (t : Task) :
  no_brace (prompt_suffix (prompt_of t)) = true.
Proof. destruct t; vm_compute; reflexivity. Qed.

Lemma create_messages_task (t : Task) (chunk : pystr) :
  create_messages (prompt_of t) chunk = Returned (task_messages t chunk).
Proof.
  unfold create_messages, task_messages.
  pose proof (prompt_split t) as E.
  pose proof (prompt_prefix_no_brace t) as Hpre.
  pose proof (prompt_suffix_no_brace t) as Hpost.
  set (pre := prompt_prefix (prompt_of t)) in *.
  set (post := prompt_suffix (prompt_of t)) in *.
  rewrite E, (py_format_split pre post chunk Hpre Hpost). reflexivity.
Qed.

Lemma is_prefix_app (p b : pystr) : is_prefix p (p ++ b) = true.
Proof.
  induction p as [|y p IH]; [reflexivity|].
  cbn. rewrite N.eqb_refl. exact IH.
Qed.

Lemma py_in_prefix (needle s : pystr) :
  is_prefix needle s = true -> py_in needle s = true.
Proof. intros H. destruct s; cbn [py_in]; rewrite H; reflexivity. Qed.

Lemma py_in_app (needle a b : pystr) :
  py_in needle (a ++ needle ++ b) = true.
Proof.
  induction a as [|x a IH].
  - cbn [app]. apply py_in_prefix, is_prefix_app.
  - cbn [app py_in]. rewrite IH. apply orb_true_r.
Qed.

Lemma no_brace_app (a b : pystr) :
  no_brace (a ++ b) = no_brace a && no_brace b.
Proof. unfold no_brace. apply forallb_app. Qed.

(** C5, as the specification words it, fails for a chunk that itself holds
    the text of a placeholder: the chunk is embedded as it is, so the
    instruction sent to the client contains that text. *)
Lemma rendered_chunk_may_hold_placeholder_text :
  exists rendered,
    create_messages (prompt_of Summary) (lit "{document}")
    = Returned [SystemMessage (lit "You are a legal expert AI assistant.");
                HumanMessage rendered]
    /\ py_in (lit "{document}") rendered = true.
Proof.
  eexists. split.
  - apply create_messages_task.
  - exact (py_in_app (lit "{document}") _ _).
Qed.

(** C5, amended. For each of the six tasks and every chunk text, the user
    instruction sent to the client is the prompt's text before its
    placeholder, then the chunk text as it is, then the prompt's text after
    the placeholder; neither part of the prompt's text holds a brace, so the
    chunk is there verbatim and no placeholder of the prompt is left
    unrendered; and when the chunk holds no brace, the whole instruction
    holds none. *)
Theorem rendered_instruction (t : Task) (chunk : pystr) :
  exists rendered,
    create_messages (prompt_of t) chunk
    = Returned [SystemMessage (lit "You are a legal expert AI assistant.");
                HumanMessage rendered]
    /\ rendered
       = prompt_prefix (prompt_of t) ++ chunk ++ prompt_suffix (prompt_of t)
    /\ no_brace (prompt_prefix (prompt_of t)) = true
    /\ no_brace (prompt_suffix (prompt_of t)) = true
    /\ py_in chunk rendered = true
    /\ (no_brace chunk = true ->
        no_brace rendered = true /\ py_in (lit "{document}") rendered = false).
Proof.
  eexists. split; [apply create_messages_task|].
  split; [reflexivity|].
  pose proof (prompt_prefix_no_brace t) as Hpre.
  pose proof (prompt_suffix_no_brace t) as Hpost.
  split; [exact Hpre|]. split; [exact Hpost|].
  split; [apply py_in_app|].
  intros Hchunk.
  assert (Hall : no_brace (prompt_prefix (prompt_of t) ++ chunk
                           ++ prompt_suffix (prompt_of t)) = true).
  { rewrite !no_brace_app, Hpre, Hchunk, Hpost. reflexivity. }
  split; [exact Hall|].
  revert Hall. generalize (prompt_prefix (prompt_of t) ++ chunk
                           ++ prompt_suffix (prompt_of t)).
  intros s. induction s as [|c s IH]; intros Hs; [reflexivity|].
  cbn [no_brace forallb] in Hs. apply andb_prop in Hs as [Hc Hs].
  apply negb_true_iff, orb_false_iff in Hc as [Hl _].
  cbn [py_in]. rewrite (IH Hs), orb_false_r.
  change (lit "{document}") with placeholder. unfold placeholder.
  cbn [is_prefix]. rewrite N.eqb_sym, Hl. reflexivity.
Qed.

Lemma rendered_instruction_witness :
  exists rendered,
    create_messages (prompt_of Appeal) (lit "Clause 1.")
    = Returned [SystemMessage (lit "You are a legal expert AI assistant.");
                HumanMessage rendered]
    /\ py_in (lit "Clause 1.") rendered = true
    /\ py_in (lit "{document}") rendered = false.
Proof.
  destruct (rendered_instruction Appeal (lit "Clause 1."))
    as (rendered & Hrun & _ & _ & _ & Hin & Hclean).
  exists rendered. split; [exact Hrun|]. split; [exact Hin|].
  apply Hclean. vm_compute. reflexivity.
Defined.

(** * The task agents *)

Section AgentRuns.

Variable ClientState : Type.
Variable invoke : ClientState -> list Message -> (pystr + PyExn) * ClientState.

(** One turn of the [for] loop of a task agent. *)
Lemma for_chunks_cons (t : Task) (chunk : pystr) (rest parts : list pystr)
  (w : World ClientState) :
  for_chunks invoke (prompt_of t) (chunk :: rest) parts w
  = match invoke (client w) (task_messages t chunk) with
    | (inl content, c') =>
      for_chunks invoke (prompt_of t) rest (parts ++ [content])
        (mkWorld c' (events w ++ [Invoked (task_messages t chunk) (inl content)]))
    | (inr e, c') =>
      (Raised e,
       mkWorld c' (events w ++ [Invoked (task_messages t chunk) (inr e)]))
    end.
Proof using Type.
  cbn [for_chunks]. unfold bind, lift at 1. rewrite create_messages_task.
  unfold model_invoke.
  destruct (invoke (client w) (task_messages t chunk)) as [[content|e] c'];
    reflexivity.
Qed.

Lemma sent_for_cons (t : Task) (chunk : pystr) (rest : list pystr)
  (new : list Event) :
  Forall (sent_for t rest) new -> Forall (sent_for t (chunk :: rest)) new.
Proof using Type.
  intros H. eapply Forall_impl; [exact H|].
  intros ev (c & reply & Hin & ->).
  exists c, reply. split; [right; exact Hin|reflexivity].
Qed.

(** The loop either answers every chunk, or stops at the first call that
    raises; the calls before it all returned.  Every call carries the
    messages of one of the chunks. *)
Lemma for_chunks_run (t : Task) (doc_chunks : list pystr) :
  forall (parts : list pystr) (w : World ClientState),
    let r := for_chunks invoke (prompt_of t) doc_chunks parts w in
    exists new,
      events (snd r) = events w ++ new
      /\ Forall (sent_for t doc_chunks) new
      /\ ((exists outs,
              fst r = Returned (parts ++ outs)
              /\ length outs = length doc_chunks
              /\ length new = length doc_chunks
              /\ forallb succeeded new = true)
          \/ (exists e msgs before,
                 fst r = Raised e
                 /\ new = before ++ [Invoked msgs (inr e)]
                 /\ forallb succeeded before = true)).
Proof using Type.
  induction doc_chunks as [|chunk rest IH]; intros parts w r; subst r.
  - exists []. cbn. rewrite app_nil_r. split; [reflexivity|].
    split; [constructor|]. left.
    exists []. rewrite app_nil_r. repeat split; reflexivity.
  - rewrite for_chunks_cons.
    destruct (invoke (client w) (task_messages t chunk)) as [[content|e] c'].
    + set (w1 := mkWorld c' _).
      destruct (IH (parts ++ [content]) w1) as (new & Hev & Hsent & Hcases).
      exists (Invoked (task_messages t chunk) (inl content) :: new).
      split.
      { rewrite Hev. unfold w1. cbn [events]. rewrite <- app_assoc. reflexivity. }
      split.
      { constructor; [|apply sent_for_cons, Hsent].
        exists chunk, (inl content). split; [left|]; reflexivity. }
      destruct Hcases as [(outs & Hr & Hlo & Hln & Hok)|(e & msgs & before & Hr & Hnew & Hok)].
      * left. exists (content :: outs). rewrite Hr, <- app_assoc.
        cbn [app length forallb succeeded]. rewrite Hlo, Hln, Hok.
        repeat split; reflexivity.
      * right. exists e, msgs, (Invoked (task_messages t chunk) (inl content) :: before).
        rewrite Hr, Hnew. cbn [forallb succeeded]. rewrite Hok.
        repeat split; reflexivity.
    + exists [Invoked (task_messages t chunk) (inr e)]. cbn [snd fst events].
      split; [reflexivity|]. split.
      { constructor; [|constructor].
        exists chunk, (inr e). split; [left|]; reflexivity. }
      right. exists e, (task_messages t chunk), [].
      repeat split; reflexivity.
Qed.

End AgentRuns.

Lemma agent_of_task_agent {ClientState : Type}
  (invoke : ClientState -> list Message -> (pystr + PyExn) * ClientState)
  (t : Task) :
  agent_of invoke t
  = task_agent invoke (prompt_of t) (log_prefix_of t) (error_prefix_of t).
Proof.
  destruct t;
    unfold agent_of, prompt_of, log_prefix_of, error_prefix_of,
      legal_summary_agent, legal_appeal_agent, legal_review_agent,
      legal_lawsuit_agent, legal_lawsuit_response_agent,
      legal_contract_analysis_agent;
    reflexivity.
Qed.

Lemma new_events_app {ClientState : Type} (w w' : World ClientState)
  (new : list Event) :
  events w' = events w ++ new -> new_events w w' = new.
Proof. intros H. unfold new_events. rewrite H. apply drop_app_length. Qed.

Lemma Forall_kept {A} (P : A -> Prop) (keep : A -> bool) (l : list A) :
  Forall P l -> Forall P (List.filter keep l).
Proof.
  induction 1 as [|x l Hx Hl IH]; cbn; [constructor|].
  destruct (keep x); [constructor|]; assumption.
Qed.

(** The body of a task agent, once the document is chunked. *)
Lemma task_agent_unfold {ClientState : Type}
  (invoke : ClientState -> list Message -> (pystr + PyExn) * ClientState)
  (prompt log_prefix error_prefix document : pystr) (w : World ClientState)
  (chunks : list pystr) :
  chunk_document document default_max_length = Some chunks ->
  task_agent invoke prompt log_prefix error_prefix document w
  = match for_chunks invoke prompt chunks [] w with
    | (Returned parts, w') => (Returned (py_join (lit " ") parts), w')
    | (Raised e, w') =>
      (Returned (error_prefix ++ exn_str e),
       mkWorld (client w') (events w' ++ [Logged (log_prefix ++ exn_str e)]))
    | (Unmodelled, w') => (Unmodelled, w')
    | (Diverged, w') => (Diverged, w')
    end.
Proof.
  intros H. unfold task_agent, try_except, bind, lift_loop, logging_error, ret.
  rewrite H.
  destruct (for_chunks invoke prompt chunks [] w) as [[parts|e| |] w'];
    reflexivity.
Qed.

(** A run of a task agent: the document is chunked, and either every chunk
    is answered and the answers are joined, or the first call that raises
    ends the run with the error text, after one line is logged. *)
Lemma task_agent_run {ClientState : Type}
  (invoke : ClientState -> list Message -> (pystr + PyExn) * ClientState)
  (t : Task) (document : pystr) (w : World ClientState) :
  exists chunks new,
    chunk_document document default_max_length = Some chunks
    /\ events (snd (agent_of invoke t document w)) = events w ++ new
    /\ Forall (sent_for t chunks) (List.filter is_call new)
    /\ ((exists outs,
            fst (agent_of invoke t document w)
            = Returned (py_join (lit " ") outs)
            /\ length outs = length chunks
            /\ length new = length chunks
            /\ forallb succeeded new = true)
        \/ (exists e msgs before,
               fst (agent_of invoke t document w)
               = Returned (error_prefix_of t ++ exn_str e)
               /\ new = before ++ [Invoked msgs (inr e);
                                   Logged (log_prefix_of t ++ exn_str e)]
               /\ forallb succeeded before = true)).
Proof.
  destruct (chunk_document_spec document default_max_length) as (chunks & Hrun & _);
    [reflexivity|].
  exists chunks.
  rewrite agent_of_task_agent, (task_agent_unfold _ _ _ _ _ _ _ Hrun).
  destruct (for_chunks_run ClientState invoke t chunks [] w)
    as (new & Hev & Hsent
        & [(outs & Hr & Hlo & Hln & Hok)|(e & msgs & before & Hr & Hnew & Hok)]);
    cbn zeta in *;
    destruct (for_chunks invoke (prompt_of t) chunks [] w) as [o w1];
    cbn [fst snd] in *; subst o.
  - exists new. split; [exact Hrun|]. cbn [fst snd app].
    split; [exact Hev|]. split; [apply Forall_kept, Hsent|].
    left. exists outs. repeat split; assumption.
  - exists (new ++ [Logged (log_prefix_of t ++ exn_str e)]).
    split; [exact Hrun|]. cbn [fst snd events].
    split; [rewrite Hev, app_assoc; reflexivity|].
    split.
    { rewrite List.filter_app. cbn [List.filter is_call]. rewrite app_nil_r.
      apply Forall_kept, Hsent. }
    right. exists e, msgs, before. rewrite Hnew, <- app_assoc.
    split; [reflexivity|]. split; [reflexivity|exact Hok].
Qed.


Lemma for_chunks_echo {ClientState : Type}
  (invoke : ClientState -> list Message -> (pystr + PyExn) * ClientState)
  (t : Task) (x : pystr) :
  (forall st messages, fst (invoke st messages) = inl x) ->
  forall (doc_chunks parts : list pystr) (w : World ClientState),
    fst (for_chunks invoke (prompt_of t) doc_chunks parts w)
    = Returned (parts ++ repeat x (length doc_chunks)).
Proof.
  intros Hecho doc_chunks.
  induction doc_chunks as [|chunk rest IH]; intros parts w.
  - cbn. rewrite app_nil_r. reflexivity.
  - rewrite for_chunks_cons.
    pose proof (Hecho (client w) (task_messages t chunk)) as H.
    destruct (invoke (client w) (task_messages t chunk)) as [[content|e] c'];
      cbn [fst] in H; [|discriminate].
    injection H as ->. rewrite IH, <- app_assoc. reflexivity.
Qed.

(** C2. For each of the six task agents and every document, when the
    completion client answers [X] to every call, the agent returns [X]
    once per chunk of the document, joined by single spaces; a document of
    12000 characters gives [X X X]. *)
Theorem task_agent_echo {ClientState : Type}
  (invoke : ClientState -> list Message -> (pystr + PyExn) * ClientState)
  (t : Task) (document : pystr) (w : World ClientState) :
  (forall st messages, fst (invoke st messages) = inl (lit "X")) ->
  exists chunks,
    chunk_document document default_max_length = Some chunks
    /\ fst (agent_of invoke t document w)
       = Returned (py_join (lit " ") (repeat (lit "X") (length chunks)))
    /\ (len document = 12000 ->
        length chunks = 3%nat
        /\ fst (agent_of invoke t document w) = Returned (lit "X X X")).
Proof.
  intros Hecho.
  destruct (chunk_document_spec document default_max_length)
    as (chunks & Hrun & Hcat & Hws & _); [reflexivity|].
  exists chunks. split; [exact Hrun|].
  assert (Hres : fst (agent_of invoke t document w)
                 = Returned (py_join (lit " ") (repeat (lit "X") (length chunks)))).
  { rewrite agent_of_task_agent, (task_agent_unfold _ _ _ _ _ _ _ Hrun).
    pose proof (for_chunks_echo invoke t (lit "X") Hecho chunks [] w) as Hloop.
    destruct (for_chunks invoke (prompt_of t) chunks [] w) as [o w1].
    cbn [fst] in Hloop. subst o. reflexivity. }
  split; [exact Hres|].
  intros Hlen.
  assert (Hn : length chunks = 3%nat).
  { assert (Hne : chunks <> []).
    { intros ->. cbn in Hcat. subst document. discriminate. }
    destruct (well_sized_count default_max_length chunks) as [Hlo Hhi];
      [reflexivity|exact Hws|exact Hne|].
    rewrite Hcat, Hlen in Hlo, Hhi. unfold default_max_length in *. lia. }
  split; [exact Hn|]. rewrite Hres, Hn. reflexivity.
Qed.

Lemma task_agent_echo_witness :
  (forall st messages, fst (echo_X st messages) = inl (lit "X"))
  /\ fst (agent_of echo_X Review (letters 12000) (mkWorld 0%nat []))
     = Returned (lit "X X X").
Proof.
  assert (H : forall st messages, fst (echo_X st messages) = inl (lit "X"))
    by (intros; reflexivity).
  split; [exact H|].
  destruct (task_agent_echo echo_X Review (letters 12000) (mkWorld 0%nat []) H)
    as (chunks & _ & _ & Hex).
  apply Hex. vm_compute. reflexivity.
Defined.

(** C3. For each of the six task agents and every document, when a call to
    the completion client raises during a run, the agent returns, and what
    it returns is its task's error prefix followed by the text of that
    exception and nothing else: the answers to the chunks before it are
    dropped.  The raising call is the last one of the run; the calls
    before it all returned; one line is logged after it. *)
Theorem task_agent_fails_soft {ClientState : Type}
  (invoke : ClientState -> list Message -> (pystr + PyExn) * ClientState)
  (t : Task) (document : pystr) (w : World ClientState)
  (messages : list Message) (e : PyExn) :
  In (Invoked messages (inr e))
     (new_events w (snd (agent_of invoke t document w))) ->
  fst (agent_of invoke t document w)
  = Returned (error_prefix_of t ++ exn_str e)
  /\ exists before,
       new_events w (snd (agent_of invoke t document w))
       = before ++ [Invoked messages (inr e);
                    Logged (log_prefix_of t ++ exn_str e)]
       /\ forallb succeeded before = true.
Proof.
  intros Hin.
  destruct (task_agent_run invoke t document w)
    as (chunks & new & _ & Hev & _ & Hcases).
  rewrite (new_events_app _ _ _ Hev) in *.
  destruct Hcases as [(outs & _ & _ & _ & Hok)|(e' & msgs & before & Hr & Hnew & Hok)].
  - rewrite forallb_forall in Hok. apply Hok in Hin. discriminate.
  - assert (Heq : Invoked messages (inr e) = Invoked msgs (inr e')).
    { subst new. apply in_app_or in Hin as [Hin|Hin].
      - rewrite forallb_forall in Hok. apply Hok in Hin. discriminate.
      - destruct Hin as [Hin|[Hin|[]]]; [symmetry; exact Hin|discriminate]. }
    injection Heq as -> ->. split; [exact Hr|].
    exists before. split; [exact Hnew|exact Hok].
Qed.

Lemma task_agent_fails_soft_witness :
  In (Invoked (task_messages Summary (lit "a")) (inr quota_error))
     (new_events (mkWorld 0%nat [])
        (snd (agent_of (fails_after 1) Summary (letters 5001)
                (mkWorld 0%nat []))))
  /\ fst (agent_of (fails_after 1) Summary (letters 5001) (mkWorld 0%nat []))
     = Returned (lit "Error generating summary: quota exceeded").
Proof.
  assert (H : In (Invoked (task_messages Summary (lit "a")) (inr quota_error))
                (new_events (mkWorld 0%nat [])
                   (snd (agent_of (fails_after 1) Summary (letters 5001)
                           (mkWorld 0%nat []))))).
  { vm_compute. right. left. reflexivity. }
  split; [exact H|].
  destruct (task_agent_fails_soft (fails_after 1) Summary (letters 5001)
              (mkWorld 0%nat []) _ _ H) as [Hr _].
  rewrite Hr. vm_compute. reflexivity.
Defined.

(** C9. For the empty document each of the six task agents returns the
    empty string and leaves the world as it was: no call is made to the
    completion client and nothing is logged. *)
Theorem task_agent_empty_document {ClientState : Type}
  (invoke : ClientState -> list Message -> (pystr + PyExn) * ClientState)
  (t : Task) (w : World ClientState) :
  chunk_document [] default_max_length = Some []
  /\ agent_of invoke t [] w = (Returned [], w)
  /\ new_events w (snd (agent_of invoke t [] w)) = [].
Proof.
  split; [reflexivity|].
  assert (H : agent_of invoke t [] w = (Returned [], w))
    by (rewrite agent_of_task_agent; reflexivity).
  split; [exact H|]. rewrite H. unfold new_events. cbn [snd].
  apply drop_all.
Qed.

(** * The chat agent *)

(** A run of the chat agent: one call, with the one pair of messages; its
    answer is returned, or the apology when it raises. *)
Lemma chat_agent_unfold {ClientState : Type}
  (invoke : ClientState -> list Message -> (pystr + PyExn) * ClientState)
  (document question : pystr) (w : World ClientState) :
  legal_chat_helper_agent invoke document question w
  = match invoke (client w) (chat_messages document question) with
    | (inl content, c') =>
      (Returned content,
       mkWorld c'
         (events w ++ [Invoked (chat_messages document question) (inl content)]))
    | (inr e, c') =>
      (Returned chat_apology,
       mkWorld c'
         (events w ++ [Invoked (chat_messages document question) (inr e)]
          ++ [Logged (lit "Error in chat helper: " ++ exn_str e)]))
    end.
Proof.
  unfold legal_chat_helper_agent, try_except, bind, model_invoke,
    logging_error, ret.
  fold (chat_messages document question).
  destruct (invoke (client w) (chat_messages document question))
    as [[content|e] c']; cbn [client events]; [reflexivity|].
  rewrite <- app_assoc. reflexivity.
Qed.

(** C4. For every document and question, when the completion client raises
    on the chat agent's call, the agent returns the fixed apology, whatever
    the exception says; it does not raise. *)
Theorem chat_agent_apologizes {ClientState : Type}
  (invoke : ClientState -> list Message -> (pystr + PyExn) * ClientState)
  (document question : pystr) (w : World ClientState) (e : PyExn) :
  fst (invoke (client w) (chat_messages document question)) = inr e ->
  fst (legal_chat_helper_agent invoke document question w)
  = Returned chat_apology
  /\ new_events w (snd (legal_chat_helper_agent invoke document question w))
     = [Invoked (chat_messages document question) (inr e);
        Logged (lit "Error in chat helper: " ++ exn_str e)].
Proof.
  intros H. rewrite chat_agent_unfold.
  destruct (invoke (client w) (chat_messages document question))
    as [[content|e'] c']; cbn [fst] in H; [discriminate|].
  injection H as ->. split; [reflexivity|].
  apply new_events_app. reflexivity.
Qed.

Lemma chat_agent_apologizes_witness :
  fst (fails_after 0 (client (mkWorld 0%nat []))
         (chat_messages (lit "Lease.") (lit "Who pays?")))
  = inr quota_error
  /\ fst (legal_chat_helper_agent (fails_after 0) (lit "Lease.")
            (lit "Who pays?") (mkWorld 0%nat []))
     = Returned chat_apology.
Proof.
  assert (H : fst (fails_after 0 (client (mkWorld 0%nat []))
                     (chat_messages (lit "Lease.") (lit "Who pays?")))
              = inr quota_error) by reflexivity.
  split; [exact H|].
  exact (proj1 (chat_agent_apologizes (fails_after 0) (lit "Lease.")
                  (lit "Who pays?") (mkWorld 0%nat []) quota_error H)).
Defined.

(** C7. For every document and question, the chat agent does not chunk:
    it makes exactly one call to the completion client, whose user message
    holds the question and the whole document between fixed texts, and it
    returns the answer of that call as it is. *)
Theorem chat_agent_single_call {ClientState : Type}
  (invoke : ClientState -> list Message -> (pystr + PyExn) * ClientState)
  (document question : pystr) (w : World ClientState) :
  exists reply,
    reply = fst (invoke (client w) (chat_messages document question))
    /\ chat_messages document question
       = [SystemMessage chat_system_content;
          HumanMessage (chat_human_part1 ++ question ++ chat_human_part2
                        ++ document ++ chat_human_part3)]
    /\ List.filter is_call
         (new_events w (snd (legal_chat_helper_agent invoke document question w)))
       = [Invoked (chat_messages document question) reply]
    /\ match reply with
       | inl content =>
         fst (legal_chat_helper_agent invoke document question w)
         = Returned content
       | inr _ =>
         fst (legal_chat_helper_agent invoke document question w)
         = Returned chat_apology
       end.
Proof.
  eexists. split; [reflexivity|]. split; [reflexivity|].
  rewrite chat_agent_unfold.
  destruct (invoke (client w) (chat_messages document question))
    as [[content|e] c']; cbn [fst snd].
  - split; [|reflexivity]. erewrite new_events_app by reflexivity. reflexivity.
  - split; [|reflexivity]. erewrite new_events_app by reflexivity. reflexivity.
Qed.

(** * Module start-up *)

(** C8. When [OPENAI_API_KEY] is set neither in the process environment nor
    in the [.env] file, the import of the module raises a [ValueError] that
    names the missing variable, before the client is built: the import
    yields no globals, so no client and no agent to call. *)
Theorem module_init_missing_key (environ dotenv : gmap pystr pystr) :
  environ !! lit "OPENAI_API_KEY" = None ->
  dotenv !! lit "OPENAI_API_KEY" = None ->
  module_init environ dotenv
  = Raised (ValueError (lit "OPENAI_API_KEY not found in environment variables"))
  /\ forall g : Globals, module_init environ dotenv <> Returned g.
Proof.
  intros Henv Hdot.
  assert (H : module_init environ dotenv
              = Raised (ValueError
                          (lit "OPENAI_API_KEY not found in environment variables"))).
  { unfold module_init, getenv, load_dotenv.
    rewrite (proj2 (lookup_union_None environ dotenv _) (conj Henv Hdot)).
    reflexivity. }
  split; [exact H|]. intros g. rewrite H. discriminate.
Qed.

Lemma module_init_missing_key_witness :
  (∅ : gmap pystr pystr) !! lit "OPENAI_API_KEY" = None
  /\ ({[ lit "DEBUG" := lit "1" ]} : gmap pystr pystr) !! lit "OPENAI_API_KEY" = None
  /\ module_init ∅ {[ lit "DEBUG" := lit "1" ]}
     = Raised (ValueError (lit "OPENAI_API_KEY not found in environment variables")).
Proof.
  assert (H1 : (∅ : gmap pystr pystr) !! lit "OPENAI_API_KEY" = None)
    by reflexivity.
  assert (H2 : ({[ lit "DEBUG" := lit "1" ]} : gmap pystr pystr)
               !! lit "OPENAI_API_KEY" = None) by (vm_compute; reflexivity).
  split; [exact H1|]. split; [exact H2|].
  exact (proj1 (module_init_missing_key ∅ {[ lit "DEBUG" := lit "1" ]} H1 H2)).
Defined.

(** * More on the chunker *)

Lemma chunk_document_sound (document : pystr) (L : Z) (chunks : list pystr) :
  0 < L -> chunk_document document L = Some chunks ->
  concat chunks = document /\ well_sized L chunks.
Proof.
  intros HL Hrun.
  destruct (chunk_document_spec document L HL) as (cs & Hcs & Hcat & Hws & _).
  rewrite Hrun in Hcs. injection Hcs as <-. split; assumption.
Qed.

Lemma well_sized_tail (L : Z) (c : pystr) (cs : list pystr) :
  well_sized L (c :: cs) -> well_sized L cs.
Proof. destruct cs as [|c' cs]; [intros _; exact I|]. intros [_ H]. exact H. Qed.

Lemma well_sized_head (L : Z) (c : pystr) (cs : list pystr) :
  0 < L -> well_sized L (c :: cs) -> 1 <= len c <= L.
Proof. intros HL. destruct cs as [|c' cs]; cbn; lia. Qed.

Lemma well_sized_head_full (L : Z) (c c' : pystr) (cs : list pystr) :
  well_sized L (c :: c' :: cs) -> len c = L.
Proof. intros [H _]. exact H. Qed.

Lemma well_sized_concat_pos (L : Z) (cs : list pystr) :
  0 < L -> well_sized L cs -> cs <> [] -> 1 <= len (concat cs).
Proof.
  intros HL Hws Hne. destruct cs as [|c cs]; [congruence|].
  pose proof (well_sized_head L c cs HL Hws).
  cbn [concat]. rewrite len_app. unfold len in *. lia.
Qed.

(** A text has at most one well-sized partition. *)
Lemma well_sized_unique (L : Z) :
  0 < L ->
  forall a b : list pystr,
    well_sized L a -> well_sized L b -> concat a = concat b -> a = b.
Proof.
  intros HL. induction a as [|c a IH]; intros b Ha Hb Heq.
  - destruct b as [|d b]; [reflexivity|].
    pose proof (well_sized_concat_pos L (d :: b) HL Hb ltac:(discriminate)) as Hpos.
    rewrite <- Heq in Hpos. unfold len in Hpos. cbn in Hpos. lia.
  - destruct b as [|d b].
    { pose proof (well_sized_concat_pos L (c :: a) HL Ha ltac:(discriminate)) as Hpos.
      rewrite Heq in Hpos. unfold len in Hpos. cbn in Hpos. lia. }
    pose proof (well_sized_head L c a HL Ha) as Hc.
    pose proof (well_sized_head L d b HL Hb) as Hd.
    assert (Hlen : length c = length d).
    { assert (Htot : len (concat (c :: a)) = len (concat (d :: b)))
        by (rewrite Heq; reflexivity).
      cbn [concat] in Htot. rewrite !len_app in Htot.
      destruct a as [|c' a], b as [|d' b].
      - cbn in Htot. unfold len in *. lia.
      - pose proof (well_sized_head_full L d d' b Hb).
        pose proof (well_sized_concat_pos L (d' :: b) HL
                      (well_sized_tail L d _ Hb) ltac:(discriminate)).
        cbn [concat] in Htot. unfold len in *. cbn [length] in Htot. lia.
      - pose proof (well_sized_head_full L c c' a Ha).
        pose proof (well_sized_concat_pos L (c' :: a) HL
                      (well_sized_tail L c _ Ha) ltac:(discriminate)).
        cbn [concat] in Htot. unfold len in *. cbn [length] in Htot. lia.
      - pose proof (well_sized_head_full L c c' a Ha).
        pose proof (well_sized_head_full L d d' b Hb).
        unfold len in *. lia. }
    cbn [concat] in Heq.
    destruct (app_inj_1 _ _ _ _ Hlen Heq) as [-> Hrest].
    f_equal. apply IH; [eapply well_sized_tail|eapply well_sized_tail|]; eassumption.
Qed.

Lemma well_sized_bounds (L : Z) (cs : list pystr) :
  0 < L -> well_sized L cs -> Forall (fun c => 1 <= len c <= L) cs.
Proof.
  intros HL. induction cs as [|c cs IH]; intros Hws; constructor.
  - exact (well_sized_head L c cs HL Hws).
  - apply IH. exact (well_sized_tail L c cs Hws).
Qed.

(** When the total length is a multiple of [L], every chunk is full. *)
Lemma well_sized_all_full (L : Z) (cs : list pystr) :
  0 < L -> well_sized L cs ->
  forall n : Z,
    len (concat cs) = n * L ->
    Forall (fun c => len c = L) cs /\ Z.of_nat (length cs) = n.
Proof.
  intros HL. induction cs as [|c cs IH]; intros Hws n Hn.
  - unfold len in Hn. cbn in Hn. split; [constructor|]. cbn. nia.
  - destruct cs as [|c' cs].
    + cbn [concat] in Hn. rewrite app_nil_r in Hn. cbn in Hws.
      assert (n = 1) by nia. subst n.
      split; [constructor; [lia|constructor]|reflexivity].
    + destruct Hws as [Hc Hrest].
      change (concat (c :: c' :: cs)) with (c ++ concat (c' :: cs)) in Hn.
      rewrite len_app, Hc in Hn.
      destruct (IH Hrest (n - 1)) as [Hall Hcount]; [lia|].
      split; [constructor; assumption|].
      change (length (c :: c' :: cs)) with (S (length (c' :: cs))). lia.
Qed.

Lemma well_sized_app_full (L : Z) (a b : list pystr) :
  0 < L -> Forall (fun c => len c = L) a -> well_sized L b ->
  well_sized L (a ++ b).
Proof.
  intros HL Ha Hb. induction Ha as [|c a Hc Ha IH]; [exact Hb|].
  cbn [app]. apply well_sized_cons; assumption.
Qed.

(** The chunk at index [i] of a well-sized partition, by position. *)
Lemma well_sized_lookup (L : Z) (cs : list pystr) :
  0 < L -> well_sized L cs ->
  forall (i : nat) (c : pystr),
    cs !! i = Some c ->
    c = take (Z.to_nat L) (drop (i * Z.to_nat L) (concat cs)).
Proof.
  intros HL. induction cs as [|c0 cs IH]; intros Hws i c Hi; [discriminate|].
  pose proof (well_sized_head L c0 cs HL Hws) as H0.
  destruct cs as [|c1 cs].
  - destruct i as [|i]; [|discriminate]. cbn in Hi. injection Hi as <-.
    cbn [concat Nat.mul drop]. rewrite app_nil_r.
    symmetry. apply take_ge. unfold len in H0. lia.
  - pose proof (well_sized_head_full L c0 c1 cs Hws) as Hfull.
    assert (Hl : length c0 = Z.to_nat L) by (unfold len in Hfull; lia).
    change (concat (c0 :: c1 :: cs)) with (c0 ++ concat (c1 :: cs)).
    destruct i as [|i]; cbn in Hi.
    + injection Hi as <-. cbn [Nat.mul drop]. rewrite <- Hl.
      symmetry. apply take_app_length.
    + replace (S i * Z.to_nat L)%nat with (length c0 + i * Z.to_nat L)%nat by lia.
      rewrite <- drop_drop, drop_app_length.
      apply (IH (well_sized_tail L c0 _ Hws) i c Hi).
Qed.

Lemma py_slice_clamped (document : pystr) (a L : Z) :
  0 <= a < len document -> 0 < L ->
  py_slice document a (a + L)
  = take (Z.to_nat L) (drop (Z.to_nat a) document).
Proof.
  intros Ha HL. unfold py_slice, adjust_index.
  destruct (a <? 0) eqn:E1; [lia|].
  destruct (a + L <? 0) eqn:E2; [lia|].
  rewrite (Z.min_l a) by lia.
  destruct (a <? Z.min (a + L) (len document)) eqn:E3; [|lia].
  assert (Hd : length (drop (Z.to_nat a) document)
               = Z.to_nat (len document - a))
    by (unfold len; rewrite length_drop; lia).
  destruct (Z.le_ge_cases (a + L) (len document)) as [Hle|Hge].
  - rewrite Z.min_l by lia. f_equal. lia.
  - rewrite Z.min_r by lia. rewrite !take_ge by lia. reflexivity.
Qed.

(** A well-sized partition of [document] has [ceil(len / L)] chunks. *)
Lemma well_sized_ceil (L : Z) (document : pystr) (chunks : list pystr) :
  0 < L -> well_sized L chunks -> concat chunks = document ->
  Z.of_nat (length chunks) = (len document + L - 1) / L.
Proof.
  intros HL Hws Hcat.
  destruct chunks as [|c cs].
  - cbn in Hcat. subst document. unfold len. cbn [length Z.of_nat].
    symmetry. apply Z.div_small. lia.
  - destruct (well_sized_count L (c :: cs) HL Hws) as [Hlo Hhi]; [discriminate|].
    rewrite Hcat in Hlo, Hhi.
    set (n := Z.of_nat (length (c :: cs))) in *.
    apply (Z.div_unique_pos _ _ n (len document + L - 1 - L * n)); lia.
Qed.

(** X1. With a maximum length [L > 0] the chunker returns
    [ceil(len(document) / L)] chunks. *)
Theorem chunk_document_count (document : pystr) (L : Z) (chunks : list pystr) :
  0 < L -> chunk_document document L = Some chunks ->
  Z.of_nat (length chunks) = (len document + L - 1) / L.
Proof.
  intros HL Hrun.
  destruct (chunk_document_sound document L chunks HL Hrun) as [Hcat Hws].
  apply well_sized_ceil; assumption.
Qed.

Lemma chunk_document_count_witness :
  0 < 3
  /\ chunk_document (lit "abcdefg") 3 = Some [lit "abc"; lit "def"; lit "g"]
  /\ Z.of_nat (length [lit "abc"; lit "def"; lit "g"])
     = (len (lit "abcdefg") + 3 - 1) / 3.
Proof.
  assert (H0 : 0 < 3) by lia.
  assert (H1 : chunk_document (lit "abcdefg") 3
               = Some [lit "abc"; lit "def"; lit "g"]) by reflexivity.
  split; [exact H0|]. split; [exact H1|].
  exact (chunk_document_count _ _ _ H0 H1).
Defined.

(** X2. A document of exactly [n * L] characters is cut into exactly [n]
    chunks, each of [L] characters. *)
Theorem chunk_document_exact_multiple (document : pystr) (L n : Z)
  (chunks : list pystr) :
  0 < L -> len document = n * L ->
  chunk_document document L = Some chunks ->
  Z.of_nat (length chunks) = n /\ Forall (fun c => len c = L) chunks.
Proof.
  intros HL Hn Hrun.
  destruct (chunk_document_sound document L chunks HL Hrun) as [Hcat Hws].
  rewrite <- Hcat in Hn.
  destruct (well_sized_all_full L chunks HL Hws n Hn) as [Hall Hcount].
  split; assumption.
Qed.

Lemma chunk_document_exact_multiple_witness :
  0 < 2
  /\ len (lit "abcdef") = 3 * 2
  /\ chunk_document (lit "abcdef") 2 = Some [lit "ab"; lit "cd"; lit "ef"]
  /\ Z.of_nat (length [lit "ab"; lit "cd"; lit "ef"]) = 3
  /\ Forall (fun c => len c = 2) [lit "ab"; lit "cd"; lit "ef"].
Proof.
  assert (H0 : 0 < 2) by lia.
  assert (H1 : len (lit "abcdef") = 3 * 2) by reflexivity.
  assert (H2 : chunk_document (lit "abcdef") 2
               = Some [lit "ab"; lit "cd"; lit "ef"]) by reflexivity.
  split; [exact H0|]. split; [exact H1|]. split; [exact H2|].
  exact (chunk_document_exact_multiple _ _ _ _ H0 H1 H2).
Defined.

(** X3. The chunk at index [i] is the slice
    [document[i * L : i * L + L]]: chunks are cut at the multiples of [L],
    in order and without overlap. *)
Theorem chunk_document_lookup (document : pystr) (L : Z)
  (chunks : list pystr) (i : nat) (c : pystr) :
  0 < L -> chunk_document document L = Some chunks ->
  chunks !! i = Some c ->
  c = py_slice document (Z.of_nat i * L) (Z.of_nat i * L + L).
Proof.
  intros HL Hrun Hi.
  destruct (chunk_document_sound document L chunks HL Hrun) as [Hcat Hws].
  pose proof (well_sized_lookup L chunks HL Hws i c Hi) as Hc.
  rewrite Hcat in Hc.
  assert (Hlt : (i < length chunks)%nat) by (eapply lookup_lt_Some; eassumption).
  destruct (well_sized_count L chunks HL Hws) as [Hlo _].
  { intros ->. cbn in Hlt. lia. }
  rewrite Hcat in Hlo.
  rewrite py_slice_clamped by nia.
  rewrite Hc. f_equal. f_equal.
  rewrite Z2Nat.inj_mul, Nat2Z.id by lia. reflexivity.
Qed.

Lemma chunk_document_lookup_witness :
  0 < 3
  /\ chunk_document (lit "abcdefg") 3 = Some [lit "abc"; lit "def"; lit "g"]
  /\ [lit "abc"; lit "def"; lit "g"] !! 2%nat = Some (lit "g")
  /\ lit "g" = py_slice (lit "abcdefg") (Z.of_nat 2 * 3) (Z.of_nat 2 * 3 + 3).
Proof.
  assert (H0 : 0 < 3) by lia.
  assert (H1 : chunk_document (lit "abcdefg") 3
               = Some [lit "abc"; lit "def"; lit "g"]) by reflexivity.
  assert (H2 : [lit "abc"; lit "def"; lit "g"] !! 2%nat = Some (lit "g"))
    by reflexivity.
  split; [exact H0|]. split; [exact H1|]. split; [exact H2|].
  exact (chunk_document_lookup _ _ _ _ _ H0 H1 H2).
Defined.

(** X4. With a maximum length of zero or less, the chunker never returns
    on a non-empty document: however many iterations are allowed, the loop
    is still running. *)
Theorem chunk_document_nonpositive_length (document : pystr) (L : Z) :
  L <= 0 -> document <> [] ->
  chunk_document document L = None
  /\ forall fuel : nat, chunk_loop fuel document L (0, []) = None.
Proof.
  intros HL Hne.
  assert (H : forall fuel : nat, chunk_loop fuel document L (0, []) = None).
  { intros fuel. apply chunk_loop_diverges; [assumption|assumption|].
    cbn [fst]. lia. }
  split; [apply H|exact H].
Qed.

Lemma chunk_document_nonpositive_length_witness :
  -1 <= 0
  /\ lit "abc" <> []
  /\ chunk_document (lit "abc") (-1) = None
  /\ forall fuel : nat, chunk_loop fuel (lit "abc") (-1) (0, []) = None.
Proof.
  assert (H0 : -1 <= 0) by lia.
  assert (H1 : lit "abc" <> []) by (vm_compute; discriminate).
  split; [exact H0|]. split; [exact H1|].
  exact (chunk_document_nonpositive_length (lit "abc") (-1) H0 H1).
Defined.

(** X5. With [L > 0] no chunk is empty and none is longer than [L]. *)
Theorem chunk_document_chunk_bounds (document : pystr) (L : Z)
  (chunks : list pystr) :
  0 < L -> chunk_document document L = Some chunks ->
  Forall (fun c => 1 <= len c <= L) chunks.
Proof.
  intros HL Hrun.
  destruct (chunk_document_sound document L chunks HL Hrun) as [_ Hws].
  apply well_sized_bounds; assumption.
Qed.

Lemma chunk_document_chunk_bounds_witness :
  0 < 3
  /\ chunk_document (lit "abcdefg") 3 = Some [lit "abc"; lit "def"; lit "g"]
  /\ Forall (fun c => 1 <= len c <= 3) [lit "abc"; lit "def"; lit "g"].
Proof.
  assert (H0 : 0 < 3) by lia.
  assert (H1 : chunk_document (lit "abcdefg") 3
               = Some [lit "abc"; lit "def"; lit "g"]) by reflexivity.
  split; [exact H0|]. split; [exact H1|].
  exact (chunk_document_chunk_bounds _ _ _ H0 H1).
Defined.

(** X6. Round trip: a list of texts in which every text but the last has
    [L] characters and the last has 1 to [L] is what the chunker returns
    for their concatenation. *)
Theorem chunk_document_concat (L : Z) (chunks : list pystr) :
  0 < L -> well_sized L chunks ->
  chunk_document (concat chunks) L = Some chunks.
Proof.
  intros HL Hws.
  destruct (chunk_document_spec (concat chunks) L HL)
    as (cs & Hrun & Hcat & Hcs & _).
  rewrite Hrun. f_equal. apply (well_sized_unique L HL); assumption.
Qed.

Lemma chunk_document_concat_witness :
  0 < 2
  /\ well_sized 2 [lit "ab"; lit "cd"; lit "e"]
  /\ chunk_document (concat [lit "ab"; lit "cd"; lit "e"]) 2
     = Some [lit "ab"; lit "cd"; lit "e"].
Proof.
  assert (H0 : 0 < 2) by lia.
  assert (H1 : well_sized 2 [lit "ab"; lit "cd"; lit "e"])
    by (vm_compute; intuition discriminate).
  split; [exact H0|]. split; [exact H1|].
  exact (chunk_document_concat 2 _ H0 H1).
Defined.

(** X7. Chunking composes over concatenation at a multiple of [L]: when
    the first text has [n * L] characters, the chunks of the two texts put
    end to end are the chunks of the first followed by those of the
    second. *)
Theorem chunk_document_app (a b : pystr) (L n : Z) (ca cb : list pystr) :
  0 < L -> len a = n * L ->
  chunk_document a L = Some ca -> chunk_document b L = Some cb ->
  chunk_document (a ++ b) L = Some (ca ++ cb).
Proof.
  intros HL Hn Ha Hb.
  destruct (chunk_document_sound a L ca HL Ha) as [Hca Hwa].
  destruct (chunk_document_sound b L cb HL Hb) as [Hcb Hwb].
  destruct (chunk_document_spec (a ++ b) L HL) as (cs & Hrun & Hcat & Hcs & _).
  rewrite Hrun. f_equal. apply (well_sized_unique L HL).
  - exact Hcs.
  - apply well_sized_app_full; [exact HL| |exact Hwb].
    rewrite <- Hca in Hn.
    exact (proj1 (well_sized_all_full L ca HL Hwa n Hn)).
  - rewrite Hcat, concat_app, Hca, Hcb. reflexivity.
Qed.

Lemma chunk_document_app_witness :
  0 < 2
  /\ len (lit "abcd") = 2 * 2
  /\ chunk_document (lit "abcd") 2 = Some [lit "ab"; lit "cd"]
  /\ chunk_document (lit "efg") 2 = Some [lit "ef"; lit "g"]
  /\ chunk_document (lit "abcd" ++ lit "efg") 2
     = Some ([lit "ab"; lit "cd"] ++ [lit "ef"; lit "g"]).
Proof.
  assert (H0 : 0 < 2) by lia.
  assert (H1 : len (lit "abcd") = 2 * 2) by reflexivity.
  assert (H2 : chunk_document (lit "abcd") 2 = Some [lit "ab"; lit "cd"])
    by reflexivity.
  assert (H3 : chunk_document (lit "efg") 2 = Some [lit "ef"; lit "g"])
    by reflexivity.
  split; [exact H0|]. split; [exact H1|]. split; [exact H2|]. split; [exact H3|].
  exact (chunk_document_app _ _ _ _ _ _ H0 H1 H2 H3).
Defined.

(** * More on prompt rendering *)

Lemma flatten_cons (seg : Segment) (tpl : list Segment) :
  flatten (seg :: tpl) = segment_text seg ++ flatten tpl.
Proof. reflexivity. Qed.

Lemma fill_cons (document : pystr) (seg : Segment) (tpl : list Segment) :
  fill document (seg :: tpl) = segment_value document seg ++ fill document tpl.
Proof. reflexivity. Qed.

(** Rendering goes segment by segment, and goes on with what follows. *)
Lemma format_flatten_app (document : pystr) (tpl : list Segment) (s : pystr) :
  Forall plain tpl ->
  format_from Text document (flatten tpl ++ s)
  = emit (fill document tpl) (format_from Text document s).
Proof.
  induction 1 as [|seg tpl Hseg Htpl IH].
  - cbn. symmetry. apply emit_nil.
  - rewrite flatten_cons, fill_cons, <- app_assoc.
    destruct seg as [l| | |]; cbn [segment_text segment_value].
    + rewrite (format_text_no_brace _ _ _ Hseg), IH. apply emit_emit.
    + rewrite format_placeholder, IH. apply emit_emit.
    + change (format_from Text document ([lbrace; lbrace] ++ flatten tpl ++ s))
        with (emit [lbrace] (format_from Text document (flatten tpl ++ s))).
      rewrite IH. apply emit_emit.
    + change (format_from Text document ([rbrace; rbrace] ++ flatten tpl ++ s))
        with (emit [rbrace] (format_from Text document (flatten tpl ++ s))).
      rewrite IH. apply emit_emit.
Qed.

(** X8. A prompt made of brace-free text, placeholders and doubled braces
    is rendered segment by segment: text is copied, every placeholder
    becomes the document as it is, a doubled brace becomes one brace. *)
Theorem create_messages_segments (tpl : list Segment) (document : pystr) :
  Forall plain tpl ->
  create_messages (flatten tpl) document
  = Returned [SystemMessage (lit "You are a legal expert AI assistant.");
              HumanMessage (fill document tpl)].
Proof.
  intros Htpl. unfold create_messages, py_format.
  rewrite <- (app_nil_r (flatten tpl)).
  rewrite (format_flatten_app document tpl [] Htpl).
  cbn [format_from emit]. rewrite app_nil_r. reflexivity.
Qed.

Lemma create_messages_segments_witness :
  Forall plain [Lit (lit "Read "); Hole; Lit (lit " twice: "); Hole;
                Lit (lit " "); EscOpen; Lit (lit "ok"); EscClose]
  /\ create_messages (lit "Read {document} twice: {document} {{ok}}") (lit "it")
     = Returned [SystemMessage (lit "You are a legal expert AI assistant.");
                 HumanMessage (lit "Read it twice: it {ok}")].
Proof.
  assert (H : Forall plain [Lit (lit "Read "); Hole; Lit (lit " twice: "); Hole;
                            Lit (lit " "); EscOpen; Lit (lit "ok"); EscClose])
    by (repeat constructor).
  split; [exact H|].
  exact (create_messages_segments _ (lit "it") H).
Defined.

(** X9. A prompt without any brace is sent as it is: the document is not
    part of the message. *)
Theorem create_messages_without_placeholder (prompt document : pystr) :
  no_brace prompt = true ->
  create_messages prompt document
  = Returned [SystemMessage (lit "You are a legal expert AI assistant.");
              HumanMessage prompt].
Proof.
  intros Hnb. unfold create_messages, py_format.
  rewrite <- (app_nil_r prompt) at 1.
  rewrite (format_text_no_brace _ _ _ Hnb).
  cbn [format_from emit]. rewrite app_nil_r. reflexivity.
Qed.

Lemma create_messages_without_placeholder_witness :
  no_brace (lit "Summarise.") = true
  /\ create_messages (lit "Summarise.") (lit "A lease.")
     = Returned [SystemMessage (lit "You are a legal expert AI assistant.");
                 HumanMessage (lit "Summarise.")].
Proof.
  assert (H : no_brace (lit "Summarise.") = true) by reflexivity.
  split; [exact H|].
  exact (create_messages_without_placeholder _ (lit "A lease.") H).
Defined.

(** X10. An unmatched brace makes [create_messages] raise [ValueError]: a
    closing brace that is not doubled, or an opening brace at the very end
    of the prompt, whatever was rendered before it. *)
Theorem create_messages_unmatched_brace (tpl : list Segment)
  (rest document : pystr) :
  Forall plain tpl -> head rest <> Some rbrace ->
  create_messages (flatten tpl ++ rbrace :: rest) document
  = Raised (ValueError (lit "Single '}' encountered in format string"))
  /\ create_messages (flatten tpl ++ [lbrace]) document
     = Raised (ValueError (lit "Single '{' encountered in format string")).
Proof.
  intros Htpl Hrest. unfold create_messages, py_format.
  rewrite !(format_flatten_app document tpl _ Htpl). split.
  - cbn [format_from]. rewrite N.eqb_refl.
    change (rbrace =? lbrace)%N with false. cbn iota.
    destruct rest as [|c rest']; [reflexivity|].
    cbn [format_from].
    destruct (c =? rbrace)%N eqn:E; [|reflexivity].
    apply N.eqb_eq in E. subst c. cbn in Hrest. congruence.
  - reflexivity.
Qed.

Lemma create_messages_unmatched_brace_witness :
  Forall plain [Lit (lit "Read "); Hole]
  /\ head (lit " now") <> Some rbrace
  /\ create_messages (lit "Read {document}} now") (lit "it")
     = Raised (ValueError (lit "Single '}' encountered in format string"))
  /\ create_messages (lit "Read {document}{") (lit "it")
     = Raised (ValueError (lit "Single '{' encountered in format string")).
Proof.
  assert (H1 : Forall plain [Lit (lit "Read "); Hole]) by (repeat constructor).
  assert (H2 : head (lit " now") <> Some rbrace) by (vm_compute; discriminate).
  split; [exact H1|]. split; [exact H2|].
  exact (create_messages_unmatched_brace _ (lit " now") (lit "it") H1 H2).
Defined.

(** * More on the agents *)

Section AgentTraces.

Variable ClientState : Type.
Variable invoke : ClientState -> list Message -> (pystr + PyExn) * ClientState.

(** The record of the [for] loop, call by call: the chunks are taken in
    order, each with its own messages, up to the end or to the first call
    that raises. *)
Lemma for_chunks_trace (t : Task) (doc_chunks : list pystr) :
  forall (parts : list pystr) (w : World ClientState),
    (exists outs,
        length outs = length doc_chunks
        /\ fst (for_chunks invoke (prompt_of t) doc_chunks parts w)
           = Returned (parts ++ outs)
        /\ events (snd (for_chunks invoke (prompt_of t) doc_chunks parts w))
           = events w ++ zip_with (answered t) doc_chunks outs)
    \/ (exists (k : nat) (c : pystr) (outs : list pystr) (e : PyExn),
           doc_chunks !! k = Some c
           /\ length outs = k
           /\ fst (for_chunks invoke (prompt_of t) doc_chunks parts w)
              = Raised e
           /\ events (snd (for_chunks invoke (prompt_of t) doc_chunks parts w))
              = events w ++ zip_with (answered t) (take k doc_chunks) outs
                ++ [Invoked (task_messages t c) (inr e)]).
Proof using Type.
  induction doc_chunks as [|chunk rest IH]; intros parts w.
  - left. exists []. cbn. rewrite !app_nil_r. repeat split; reflexivity.
  - rewrite for_chunks_cons.
    destruct (invoke (client w) (task_messages t chunk)) as [[content|e] c'].
    + destruct (IH (parts ++ [content])
                  (mkWorld c'
                     (events w ++ [Invoked (task_messages t chunk) (inl content)])))
        as [(outs & Hlen & Hr & Hev)|(k & c & outs & e & Hk & Hlen & Hr & Hev)];
        cbn [events] in Hev.
      * left. exists (content :: outs).
        split; [cbn [length]; rewrite Hlen; reflexivity|].
        split; [rewrite Hr, <- app_assoc; reflexivity|].
        rewrite Hev, <- app_assoc. reflexivity.
      * right. exists (S k), c, (content :: outs), e.
        split; [exact Hk|].
        split; [cbn [length]; rewrite Hlen; reflexivity|].
        split; [exact Hr|].
        rewrite Hev, <- app_assoc. reflexivity.
    + right. exists 0%nat, chunk, [], e. cbn. repeat split; reflexivity.
Qed.

End AgentTraces.

Lemma is_call_answered (t : Task) (chunks outs : list pystr) :
  List.filter is_call (zip_with (answered t) chunks outs)
  = zip_with (answered t) chunks outs.
Proof.
  revert outs. induction chunks as [|c cs IH]; intros [|o outs];
    cbn; try reflexivity.
  rewrite IH. reflexivity.
Qed.

Lemma calls_made_answered (t : Task) (chunks outs : list pystr) :
  length outs = length chunks ->
  calls_made (zip_with (answered t) chunks outs) = length chunks.
Proof.
  intros Hlen. unfold calls_made. rewrite is_call_answered.
  revert outs Hlen. induction chunks as [|c cs IH]; intros [|o outs] Hlen;
    cbn in *; try reflexivity; try discriminate.
  rewrite IH by lia. reflexivity.
Qed.

Lemma calls_made_app (a b : list Event) :
  calls_made (a ++ b) = (calls_made a + calls_made b)%nat.
Proof. unfold calls_made. rewrite List.filter_app, length_app. reflexivity. Qed.

(** X11. A run of a task agent, call by call.  The chunks of the document
    are sent in order, one call each, every call with the system message
    and the prompt rendered for that chunk.  Either every call is answered
    and the answers are returned joined by single spaces, nothing being
    logged; or the run stops at the first call that raises, one line is
    logged, and the error text is returned. *)
Theorem task_agent_trace {ClientState : Type}
  (invoke : ClientState -> list Message -> (pystr + PyExn) * ClientState)
  (t : Task) (document : pystr) (w : World ClientState) :
  exists chunks,
    chunk_document document default_max_length = Some chunks
    /\ ((exists outs,
            length outs = length chunks
            /\ fst (agent_of invoke t document w)
               = Returned (py_join (lit " ") outs)
            /\ new_events w (snd (agent_of invoke t document w))
               = zip_with (answered t) chunks outs)
        \/ (exists (k : nat) (c : pystr) (outs : list pystr) (e : PyExn),
               chunks !! k = Some c
               /\ length outs = k
               /\ fst (agent_of invoke t document w)
                  = Returned (error_prefix_of t ++ exn_str e)
               /\ new_events w (snd (agent_of invoke t document w))
                  = zip_with (answered t) (take k chunks) outs
                    ++ [Invoked (task_messages t c) (inr e);
                        Logged (log_prefix_of t ++ exn_str e)])).
Proof.
  destruct (chunk_document_spec document default_max_length)
    as (chunks & Hrun & _); [reflexivity|].
  exists chunks. split; [exact Hrun|].
  rewrite agent_of_task_agent, (task_agent_unfold _ _ _ _ _ _ _ Hrun).
  destruct (for_chunks_trace ClientState invoke t chunks [] w)
    as [(outs & Hlen & Hr & Hev)|(k & c & outs & e & Hk & Hlen & Hr & Hev)];
    destruct (for_chunks invoke (prompt_of t) chunks [] w) as [o w1];
    cbn [fst snd] in *; subst o.
  - left. exists outs. cbn [fst snd app].
    split; [exact Hlen|]. split; [reflexivity|].
    apply new_events_app. exact Hev.
  - right. exists k, c, outs, e. cbn [fst snd].
    split; [exact Hk|]. split; [exact Hlen|]. split; [reflexivity|].
    apply new_events_app. cbn [events]. rewrite Hev, <- !app_assoc. reflexivity.
Qed.


(** X13. For a non-empty document of at most 5000 characters a task agent
    makes one call, with the whole document in the prompt, and returns the
    client's answer unchanged; when that call raises it logs one line and
    returns the error text. *)
Theorem task_agent_short_document {ClientState : Type}
  (invoke : ClientState -> list Message -> (pystr + PyExn) * ClientState)
  (t : Task) (document : pystr) (w : World ClientState) :
  document <> [] -> len document <= default_max_length ->
  agent_of invoke t document w
  = match invoke (client w) (task_messages t document) with
    | (inl content, c') =>
      (Returned content,
       mkWorld c'
         (events w ++ [Invoked (task_messages t document) (inl content)]))
    | (inr e, c') =>
      (Returned (error_prefix_of t ++ exn_str e),
       mkWorld c'
         (events w ++ [Invoked (task_messages t document) (inr e)]
          ++ [Logged (log_prefix_of t ++ exn_str e)]))
    end.
Proof.
  intros Hne Hle.
  assert (Hrun : chunk_document document default_max_length = Some [document]).
  { destruct (chunk_document_spec document default_max_length)
      as (chunks & Hrun & Hcat & Hws & _); [reflexivity|].
    rewrite Hrun. f_equal.
    apply (well_sized_unique default_max_length); [reflexivity|exact Hws| |].
    - cbn. unfold len in *. destruct document; [congruence|cbn in *; lia].
    - cbn [concat]. rewrite app_nil_r. exact Hcat. }
  rewrite agent_of_task_agent, (task_agent_unfold _ _ _ _ _ _ _ Hrun).
  rewrite for_chunks_cons.
  destruct (invoke (client w) (task_messages t document)) as [[content|e] c'].
  - reflexivity.
  - cbn [client events]. rewrite <- app_assoc. reflexivity.
Qed.

Lemma task_agent_short_document_witness :
  lit "A lease." <> []
  /\ len (lit "A lease.") <= default_max_length
  /\ agent_of echo_X Appeal (lit "A lease.") (mkWorld 0%nat [])
     = (Returned (lit "X"),
        mkWorld 1%nat
          [Invoked (task_messages Appeal (lit "A lease.")) (inl (lit "X"))]).
Proof.
  assert (H1 : lit "A lease." <> []) by (vm_compute; discriminate).
  assert (H2 : len (lit "A lease.") <= default_max_length)
    by (vm_compute; discriminate).
  split; [exact H1|]. split; [exact H2|].
  exact (task_agent_short_document echo_X Appeal (lit "A lease.")
           (mkWorld 0%nat []) H1 H2).
Defined.

(** X14. A task agent makes at most [ceil(len(document) / 5000)] calls to
    the completion client, and it makes none exactly when the document is
    empty. *)
Theorem task_agent_call_budget {ClientState : Type}
  (invoke : ClientState -> list Message -> (pystr + PyExn) * ClientState)
  (t : Task) (document : pystr) (w : World ClientState) :
  Z.of_nat (calls_made (new_events w (snd (agent_of invoke t document w))))
  <= (len document + default_max_length - 1) / default_max_length
  /\ (calls_made (new_events w (snd (agent_of invoke t document w))) = 0%nat
      <-> document = []).
Proof.
  destruct (chunk_document_spec document default_max_length)
    as (chunks & Hrun & Hcat & Hws & Hempty); [reflexivity|].
  pose proof (well_sized_ceil default_max_length document chunks
                ltac:(reflexivity) Hws Hcat) as Hceil.
  rewrite <- Hceil.
  assert (Hnil : chunks = [] <-> document = []).
  { split; [intros ->; symmetry; exact Hcat|exact Hempty]. }
  rewrite agent_of_task_agent, (task_agent_unfold _ _ _ _ _ _ _ Hrun).
  destruct (for_chunks_trace ClientState invoke t chunks [] w)
    as [(outs & Hlen & Hr & Hev)|(k & c & outs & e & Hk & Hlen & Hr & Hev)];
    destruct (for_chunks invoke (prompt_of t) chunks [] w) as [o w1];
    cbn [fst snd] in *; subst o; cbn [snd].
  - rewrite (new_events_app _ _ _ Hev), (calls_made_answered _ _ _ Hlen).
    split; [lia|]. rewrite <- Hnil. destruct chunks; cbn; split; congruence.
  - assert (Hlt : (k < length chunks)%nat) by (eapply lookup_lt_Some; eassumption).
    erewrite new_events_app
      by (cbn [events]; rewrite Hev, <- !app_assoc; reflexivity).
    rewrite calls_made_app, calls_made_answered
      by (rewrite length_take; lia).
    rewrite length_take.
    change (calls_made ([Invoked (task_messages t c) (inr e)]
                        ++ [Logged (log_prefix_of t ++ exn_str e)]))
      with 1%nat.
    split; [lia|]. rewrite <- Hnil.
    split; [lia|]. intros ->. cbn in Hlt. lia.
Qed.

(** * More on module start-up *)

(** Start-up depends on the environment and the [.env] file only through
    the value the key has once both are merged. *)
Lemma module_init_merged (environ dotenv : gmap pystr pystr)
  (v : option pystr) :
  (environ ∪ dotenv) !! lit "OPENAI_API_KEY" = v ->
  module_init environ dotenv
  = if py_not v
    then Raised (ValueError
                   (lit "OPENAI_API_KEY not found in environment variables"))
    else Returned (mkGlobals (default [] v)
                     (mkChatOpenAI (lit "gpt-4o-mini") (default [] v)
                        (7, 10) 2048)).
Proof.
  intros H. unfold module_init, getenv, load_dotenv. rewrite H. reflexivity.
Qed.

Lemma merged_key (environ dotenv : gmap pystr pystr) (k : pystr) :
  environ !! lit "OPENAI_API_KEY" = Some k
  \/ (environ !! lit "OPENAI_API_KEY" = None
      /\ dotenv !! lit "OPENAI_API_KEY" = Some k) ->
  (environ ∪ dotenv) !! lit "OPENAI_API_KEY" = Some k.
Proof.
  intros [He|[He Hd]].
  - apply lookup_union_Some_l. exact He.
  - rewrite lookup_union_r by exact He. exact Hd.
Qed.

(** X15. When the key has a non-empty value, start-up builds the client
    for [gpt-4o-mini] with that key, temperature 0.7 and 2048 completion
    tokens.  A value in the process environment is used whatever the
    [.env] file holds; the [.env] file is used only when the process
    environment does not have the variable. *)
Theorem module_init_key_found (environ dotenv : gmap pystr pystr) (k : pystr) :
  environ !! lit "OPENAI_API_KEY" = Some k
  \/ (environ !! lit "OPENAI_API_KEY" = None
      /\ dotenv !! lit "OPENAI_API_KEY" = Some k) ->
  k <> [] ->
  module_init environ dotenv
  = Returned (mkGlobals k (mkChatOpenAI (lit "gpt-4o-mini") k (7, 10) 2048)).
Proof.
  intros Hkey Hne.
  rewrite (module_init_merged _ _ _ (merged_key _ _ _ Hkey)).
  destruct k; [congruence|reflexivity].
Qed.

Lemma module_init_key_found_witness :
  (({[ lit "OPENAI_API_KEY" := lit "sk-env" ]} : gmap pystr pystr)
     !! lit "OPENAI_API_KEY" = Some (lit "sk-env")
   \/ (({[ lit "OPENAI_API_KEY" := lit "sk-env" ]} : gmap pystr pystr)
         !! lit "OPENAI_API_KEY" = None
       /\ ({[ lit "OPENAI_API_KEY" := lit "sk-file" ]} : gmap pystr pystr)
            !! lit "OPENAI_API_KEY" = Some (lit "sk-env")))
  /\ lit "sk-env" <> []
  /\ module_init {[ lit "OPENAI_API_KEY" := lit "sk-env" ]}
       {[ lit "OPENAI_API_KEY" := lit "sk-file" ]}
     = Returned (mkGlobals (lit "sk-env")
                   (mkChatOpenAI (lit "gpt-4o-mini") (lit "sk-env") (7, 10) 2048)).
Proof.
  assert (H1 : ({[ lit "OPENAI_API_KEY" := lit "sk-env" ]} : gmap pystr pystr)
                 !! lit "OPENAI_API_KEY" = Some (lit "sk-env")
               \/ (({[ lit "OPENAI_API_KEY" := lit "sk-env" ]} : gmap pystr pystr)
                     !! lit "OPENAI_API_KEY" = None
                   /\ ({[ lit "OPENAI_API_KEY" := lit "sk-file" ]} : gmap pystr pystr)
                        !! lit "OPENAI_API_KEY" = Some (lit "sk-env")))
    by (left; vm_compute; reflexivity).
  assert (H2 : lit "sk-env" <> []) by (vm_compute; discriminate).
  split; [exact H1|]. split; [exact H2|].
  exact (module_init_key_found _ _ _ H1 H2).
Defined.

(** X16. A key set to the empty string counts as missing: start-up raises
    the same [ValueError].  An empty variable in the process environment
    does so even when the [.env] file holds a key, since the file never
    replaces a variable that is already set. *)
Theorem module_init_empty_key (environ dotenv : gmap pystr pystr) :
  environ !! lit "OPENAI_API_KEY" = Some []
  \/ (environ !! lit "OPENAI_API_KEY" = None
      /\ dotenv !! lit "OPENAI_API_KEY" = Some []) ->
  module_init environ dotenv
  = Raised (ValueError (lit "OPENAI_API_KEY not found in environment variables")).
Proof.
  intros Hkey.
  rewrite (module_init_merged _ _ _ (merged_key _ _ _ Hkey)). reflexivity.
Qed.

Lemma module_init_empty_key_witness :
  (({[ lit "OPENAI_API_KEY" := [] ]} : gmap pystr pystr)
     !! lit "OPENAI_API_KEY" = Some []
   \/ (({[ lit "OPENAI_API_KEY" := [] ]} : gmap pystr pystr)
         !! lit "OPENAI_API_KEY" = None
       /\ ({[ lit "OPENAI_API_KEY" := lit "sk-file" ]} : gmap pystr pystr)
            !! lit "OPENAI_API_KEY" = Some []))
  /\ module_init {[ lit "OPENAI_API_KEY" := [] ]}
       {[ lit "OPENAI_API_KEY" := lit "sk-file" ]}
     = Raised (ValueError (lit "OPENAI_API_KEY not found in environment variables")).
Proof.
  assert (H1 : ({[ lit "OPENAI_API_KEY" := [] ]} : gmap pystr pystr)
                 !! lit "OPENAI_API_KEY" = Some []
               \/ (({[ lit "OPENAI_API_KEY" := [] ]} : gmap pystr pystr)
                     !! lit "OPENAI_API_KEY" = None
                   /\ ({[ lit "OPENAI_API_KEY" := lit "sk-file" ]} : gmap pystr pystr)
                        !! lit "OPENAI_API_KEY" = Some []))
    by (left; vm_compute; reflexivity).
  split; [exact H1|].
  exact (module_init_empty_key _ _ H1).
Defined.

(** X17. Whenever start-up succeeds, the client it built holds a non-empty
    key, the same as the module's [api_key], and that key is the value of
    the variable in the process environment, or in the [.env] file when
    the process environment has none. *)
Theorem module_init_success (environ dotenv : gmap pystr pystr) (g : Globals) :
  module_init environ dotenv = Returned g ->
  api_key g <> []
  /\ model g = mkChatOpenAI (lit "gpt-4o-mini") (api_key g) (7, 10) 2048
  /\ (environ !! lit "OPENAI_API_KEY" = Some (api_key g)
      \/ (environ !! lit "OPENAI_API_KEY" = None
          /\ dotenv !! lit "OPENAI_API_KEY" = Some (api_key g))).
Proof.
  rewrite (module_init_merged environ dotenv _ eq_refl).
  destruct ((environ ∪ dotenv) !! lit "OPENAI_API_KEY") as [[|c k]|] eqn:E;
    [discriminate| |discriminate].
  cbn [py_not default]. intros H. injection H as <-. cbn [api_key model].
  split; [discriminate|]. split; [reflexivity|].
  destruct (environ !! lit "OPENAI_API_KEY") as [v|] eqn:Henv.
  - left. rewrite (lookup_union_Some_l _ dotenv _ _ Henv) in E. exact E.
  - right. rewrite lookup_union_r in E by exact Henv. split; [reflexivity|exact E].
Qed.

Lemma module_init_success_witness :
  module_init ∅ {[ lit "OPENAI_API_KEY" := lit "sk-file" ]}
  = Returned (mkGlobals (lit "sk-file")
                (mkChatOpenAI (lit "gpt-4o-mini") (lit "sk-file") (7, 10) 2048))
  /\ ((∅ : gmap pystr pystr) !! lit "OPENAI_API_KEY" = Some (lit "sk-file")
      \/ ((∅ : gmap pystr pystr) !! lit "OPENAI_API_KEY" = None
          /\ ({[ lit "OPENAI_API_KEY" := lit "sk-file" ]} : gmap pystr pystr)
               !! lit "OPENAI_API_KEY" = Some (lit "sk-file"))).
Proof.
  assert (H : module_init ∅ {[ lit "OPENAI_API_KEY" := lit "sk-file" ]}
              = Returned (mkGlobals (lit "sk-file")
                            (mkChatOpenAI (lit "gpt-4o-mini") (lit "sk-file")
                               (7, 10) 2048)))
    by (vm_compute; reflexivity).
  split; [exact H|].
  exact (proj2 (proj2 (module_init_success _ _ _ H))).
Defined.
